(** * Service worker for image protection and caching: a shallow embedding

    The worker script defines [validateToken], [isAuthenticated] and a
    [fetch] event listener that selects one of four strategies (static
    assets, images, dynamic content, everything else).  This development
    embeds those functions and states the properties of the request
    classifier, the access policy and the caching strategies.  It also
    embeds the [activate], [sync] and [notificationclick] listeners.

    Conventions.
    - A JavaScript string that only ever holds code units below 256 (header
      values, serialised URLs, the result of [atob]) is a [string] of
      8-bit characters.
    - A JavaScript number that holds a millisecond timestamp is a [Z].  All
      timestamps that pass the check of [validateToken] are integers below
      2^53 as soon as [Date.now() + 1000] is, and on that range double
      arithmetic is exact, so the comparison on [Z] is the comparison the
      script performs.  [NaN] is [None].
    - [null] and [undefined] are [None].
    - [console.log] and [console.error] calls are left out: they return
      nothing and no branch depends on them. *)

From Stdlib Require Import ZArith NArith Bool List Ascii String Lia ZifyNat.
Import ListNotations.
Local Open Scope string_scope.
Local Open Scope list_scope.

(** ** String primitives of the platform *)

Module JsString.

(** [s.startsWith(p)] *)
Fixpoint startsWith (s p : string) : bool :=
  match p, s with
  | EmptyString, _ => true
  | String _ _, EmptyString => false
  | String b p', String a s' => Ascii.eqb a b && startsWith s' p'
  end.

(** [s.includes(p)] *)
Fixpoint includes (s p : string) : bool :=
  startsWith s p ||
  match s with
  | EmptyString => false
  | String _ s' => includes s' p
  end.

(** [s.endsWith(p)] *)
Fixpoint endsWith (s p : string) : bool :=
  String.eqb s p ||
  match s with
  | EmptyString => false
  | String _ s' => endsWith s' p
  end.

(** [s.split(sep)] for a one-character separator: never an empty array. *)
Fixpoint split (sep : ascii) (s : string) : list string :=
  match s with
  | EmptyString => [EmptyString]
  | String c s' =>
      if Ascii.eqb c sep then EmptyString :: split sep s'
      else match split sep s' with
           | [] => [String c EmptyString]
           | field :: fields => String c field :: fields
           end
  end.

(** ASCII lower-casing, as used to compare header names. *)
Definition lower_char (c : ascii) : ascii :=
  let n := nat_of_ascii c in
  if (65 <=? n)%nat && (n <=? 90)%nat then ascii_of_nat (n + 32) else c.

Fixpoint lowercase (s : string) : string :=
  match s with
  | EmptyString => EmptyString
  | String c s' => String (lower_char c) (lowercase s')
  end.

(** JavaScript truthiness of a string-or-null value. *)
Definition truthy (v : option string) : bool :=
  match v with
  | None => false
  | Some s => negb (String.eqb s "")
  end.

(** [a || b] on string-or-null values. *)
Definition or_else (a b : option string) : option string :=
  if truthy a then a else b.

End JsString.
Import JsString.

(** ** [atob]: the forgiving base64 decoder of the HTML standard

    [None] stands for the [InvalidCharacterError] exception. *)

Module Base64.

Definition isAsciiWhitespace (c : ascii) : bool :=
  let n := nat_of_ascii c in
  ((n =? 9) || (n =? 10) || (n =? 12) || (n =? 13) || (n =? 32))%nat.

Definition sextet (c : ascii) : option N :=
  let n := N_of_ascii c in
  (if (65 <=? n) && (n <=? 90) then Some (n - 65)
   else if (97 <=? n) && (n <=? 122) then Some (n - 71)
   else if (48 <=? n) && (n <=? 57) then Some (n + 4)
   else if n =? 43 then Some 62
   else if n =? 47 then Some 63
   else None)%N.

Fixpoint sextets (l : list ascii) : option (list N) :=
  match l with
  | [] => Some []
  | c :: l' =>
      match sextet c, sextets l' with
      | Some v, Some vs => Some (v :: vs)
      | _, _ => None
      end
  end.

Definition strip_padding (l : list ascii) : list ascii :=
  if (List.length l mod 4 =? 0)%nat then
    match rev l with
    | "="%char :: "="%char :: r => rev r
    | "="%char :: r => rev r
    | _ => l
    end
  else l.

Definition byte (n : N) : ascii := ascii_of_N (n mod 256).

(** Groups of four sextets give three bytes; a tail of three gives two
    bytes (two bits dropped), a tail of two gives one byte (four bits
    dropped). *)
Fixpoint bytes_of_sextets (l : list N) : string :=
  match l with
  | a :: b :: c :: d :: rest =>
      let n := (a * 262144 + b * 4096 + c * 64 + d)%N in
      String (byte (n / 65536))
        (String (byte (n / 256)) (String (byte n) (bytes_of_sextets rest)))
  | [a; b; c] =>
      let n := ((a * 4096 + b * 64 + c) / 4)%N in
      String (byte (n / 256)) (String (byte n) EmptyString)
  | [a; b] =>
      let n := ((a * 64 + b) / 16)%N in
      String (byte n) EmptyString
  | _ => EmptyString
  end.

Definition atob (data : string) : option string :=
  let l := filter (fun c => negb (isAsciiWhitespace c)) (list_ascii_of_string data) in
  let l := strip_padding l in
  if (List.length l mod 4 =? 1)%nat then None
  else match sextets l with
       | None => None
       | Some vs => Some (bytes_of_sextets vs)
       end.

End Base64.
Import Base64.

(** ** [parseInt] with no radix argument

    [None] stands for [NaN]. *)

Module Number.

Definition isStrWhiteSpaceChar (c : ascii) : bool :=
  let n := nat_of_ascii c in
  ((n =? 9) || (n =? 10) || (n =? 11) || (n =? 12) || (n =? 13)
   || (n =? 32) || (n =? 160))%nat.

Fixpoint trimStart (s : string) : string :=
  match s with
  | EmptyString => EmptyString
  | String c s' => if isStrWhiteSpaceChar c then trimStart s' else s
  end.

Definition digitValue (c : ascii) : option Z :=
  let n := Z.of_N (N_of_ascii c) in
  (if (48 <=? n) && (n <=? 57) then Some (n - 48)
   else if (97 <=? n) && (n <=? 122) then Some (n - 87)
   else if (65 <=? n) && (n <=? 90) then Some (n - 55)
   else None)%Z.

Definition radixDigit (R : Z) (c : ascii) : option Z :=
  match digitValue c with
  | Some d => if (d <? R)%Z then Some d else None
  | None => None
  end.

(** The longest prefix of radix-[R] digits, read as an integer; [acc] is
    [None] until a first digit has been read. *)
Fixpoint parseDigits (R : Z) (s : string) (acc : option Z) : option Z :=
  match s with
  | EmptyString => acc
  | String c s' =>
      match radixDigit R c with
      | None => acc
      | Some d =>
          parseDigits R s'
            (Some (match acc with Some a => a * R + d | None => d end)%Z)
      end
  end.

Definition parseInt (input : string) : option Z :=
  let trimmed := trimStart input in
  let '(sign, unsigned) :=
    match trimmed with
    | String "-"%char r => ((-1)%Z, r)
    | String "+"%char r => (1%Z, r)
    | _ => (1%Z, trimmed)
    end in
  let '(R, digits) :=
    match unsigned with
    | String "0"%char (String x r) =>
        if Ascii.eqb x "x"%char || Ascii.eqb x "X"%char then (16%Z, r)
        else (10%Z, unsigned)
    | _ => (10%Z, unsigned)
    end in
  match parseDigits R digits None with
  | None => None
  | Some m => Some (sign * m)%Z
  end.

End Number.
Import Number.

(** ** Token validation *)

Definition maxAge : Z := 5 * 60 * 1000.

(** [validateToken(token)], with [Date.now()] passed as [now]. *)
Definition validateToken (now : Z) (token : option string) : bool :=
  if negb (truthy token) then false
  else
    match token with
    | None => false
    | Some t =>
        match atob t with
        | None => false
        | Some decoded =>
            let parts := split "-"%char decoded in
            if (List.length parts <? 2)%nat then false
            else
              match parseInt (hd EmptyString parts) with
              | None => false
              | Some timestamp =>
                  ((now - timestamp <? maxAge) && (timestamp <=? now + 1000))%Z
              end
        end
    end.

(** ** Requests, responses and headers *)

(** A [Headers] object: [get] compares names without regard to case and
    joins the values of a repeated name. *)
Definition Headers := list (string * string).

Definition headers_get (h : Headers) (name : string) : option string :=
  match
    map snd
      (filter (fun kv => String.eqb (lowercase (fst kv)) (lowercase name)) h)
  with
  | [] => None
  | values => Some (String.concat ", " values)
  end.

Record Request := {
  url : string;
  method : string;
  destination : string;
  mode : string;
  headers : Headers
}.

Record Response := {
  body : string;
  status : Z;
  statusText : string;
  response_headers : Headers;
  response_type : string
}.

(** [response.ok] *)
Definition ok (r : Response) : bool :=
  ((200 <=? status r) && (status r <=? 299))%Z.

(** [new Response(body, { status, statusText, headers })] with a string
    body: the constructor supplies a content type when [headers] has none. *)
Definition new_Response (b : string) (st : Z) (stText : string) (hs : Headers)
  : Response :=
  {| body := b;
     status := st;
     statusText := stText;
     response_headers :=
       match headers_get hs "Content-Type" with
       | Some _ => hs
       | None => hs ++ [("content-type", "text/plain;charset=UTF-8")]
       end;
     response_type := "default" |}.

(** ** Configuration of the script *)

Definition CACHE_NAME : string := "image-protection-v11".
Definition STATIC_CACHE : string := "static-v11".
Definition IMAGES_CACHE : string := "images-v11".

Definition STATIC_ASSETS : list string :=
  ["/"; "/index.html"; "/manifest.json"; "/favicon.svg";
   "/apple-touch-icon.png"].

Definition ALLOWED_ORIGINS : list string :=
  ["https://avinashbhorphotography.github.io";
   "https://www.abphotostudio.in";
   "http://localhost:8080";
   "http://localhost:5173"].

(** What the script reads from its surroundings: [self.location],
    [Date.now()] and the network.  [network request = None] is a fetch that
    rejects (a transport failure). *)
Record Env := {
  location_origin : string;
  location_hostname : string;
  Date_now : Z;
  network : Request -> option Response
}.

(** ** Access policy *)

Definition isLocalhost (env : Env) : bool :=
  String.eqb (location_hostname env) "localhost"
  || String.eqb (location_hostname env) "127.0.0.1"
  || includes (location_hostname env) "localhost".

Definition isDownloadAttempt (userAgent : string) : bool :=
  includes userAgent "Wget"
  || includes userAgent "curl"
  || includes userAgent "Python"
  || includes userAgent "bot"
  || includes userAgent "spider"
  || includes userAgent "crawler"
  || includes userAgent "Postman"
  || includes userAgent "HTTPie".

(** The local constant [hasValidReferer] of [isAuthenticated], as a boolean
    (the script only ever tests its truthiness). *)
Definition hasValidReferer (origin : string) (referer : option string) : bool :=
  match referer with
  | None => false
  | Some r =>
      negb (String.eqb r "")
      && (startsWith r origin
          || includes r "localhost"
          || existsb (fun allowed => startsWith r allowed) ALLOWED_ORIGINS)
  end.

(** The local constant [hasValidAuth] of [isAuthenticated]. *)
Definition hasValidAuth (now : Z) (authHeader sessionToken protectedFlag : option string)
  : bool :=
  match authHeader with Some a => String.eqb a "protected" | None => false end
  && truthy sessionToken
  && validateToken now sessionToken
  && match protectedFlag with Some f => String.eqb f "true" | None => false end.

(** [request.headers.get('Referer') || request.headers.get('referer')] *)
Definition referer_of (request : Request) : option string :=
  or_else (headers_get (headers request) "Referer")
          (headers_get (headers request) "referer").

(** [request.headers.get('User-Agent') || ''] *)
Definition userAgent_of (request : Request) : string :=
  match or_else (headers_get (headers request) "User-Agent") (Some "") with
  | Some ua => ua
  | None => ""
  end.

Definition isAuthenticated (env : Env) (request : Request) : bool :=
  if isLocalhost env then true
  else
    let authHeader := headers_get (headers request) "X-Image-Auth" in
    let sessionToken := headers_get (headers request) "X-Session-Token" in
    let protectedFlag := headers_get (headers request) "X-Protected-Image" in
    let referer := referer_of request in
    let userAgent := userAgent_of request in
    if isDownloadAttempt userAgent then false
    else if includes (url request) "/images/" then
      let validReferer := hasValidReferer (location_origin env) referer in
      let validAuth :=
        hasValidAuth (Date_now env) authHeader sessionToken protectedFlag in
      if String.eqb (destination request) "image" && validReferer then true
      else if validAuth && validReferer then true
      else if String.eqb (mode request) "navigate" then false
      else false
    else true.

(** ** Cache storage

    [caches] is an ordered collection of named caches (creation order).
    A cache entry is keyed by the request URL; only GET requests match or
    are stored, and a 206 response is refused by [put].  ([Vary] headers and
    URL fragments are not modelled, and a write that is issued is applied
    at once.) *)

Definition Cache := list (string * Response).
Definition CacheStorage := list (string * Cache).

Fixpoint cache_lookup (c : Cache) (u : string) : option Response :=
  match c with
  | [] => None
  | (k, r) :: c' => if String.eqb k u then Some r else cache_lookup c' u
  end.

(** [caches.match] looks through every cache, oldest first. *)
Fixpoint storage_lookup (s : CacheStorage) (u : string) : option Response :=
  match s with
  | [] => None
  | (_, c) :: s' =>
      match cache_lookup c u with
      | Some r => Some r
      | None => storage_lookup s' u
      end
  end.

(** A request matches a stored entry when it is a GET for the entry's URL. *)
Definition cache_match (c : Cache) (request : Request) : option Response :=
  if String.eqb (method request) "GET" then cache_lookup c (url request)
  else None.

Definition storage_match (s : CacheStorage) (request : Request)
  : option Response :=
  if String.eqb (method request) "GET" then storage_lookup s (url request)
  else None.

(** The content of the cache called [name] ([None]: no such cache). *)
Fixpoint tier (s : CacheStorage) (name : string) : option Cache :=
  match s with
  | [] => None
  | (n, c) :: s' => if String.eqb n name then Some c else tier s' name
  end.

Definition cache_put (c : Cache) (request : Request) (response : Response)
  : Cache :=
  if String.eqb (method request) "GET" && negb (status response =? 206)%Z then
    filter (fun kv => negb (String.eqb (fst kv) (url request))) c
    ++ [(url request, response)]
  else c.

(** [caches.open(name)] creates the cache when it does not exist yet. *)
Fixpoint storage_update (s : CacheStorage) (name : string) (f : Cache -> Cache)
  : CacheStorage :=
  match s with
  | [] => [(name, f [])]
  | (n, c) :: s' =>
      if String.eqb n name then (n, f c) :: s'
      else (n, c) :: storage_update s' name f
  end.

(** ** The worker's effects

    Handling a request reads and writes the cache storage and leaves a log
    of what it did: cache look-ups, calls of the access policy, network
    fetches and cache writes. *)

Inductive Event :=
| CachesMatch (u : string)
| PolicyCheck (u : string)
| NetworkFetch (u : string)
| CachePut (name : string) (u : string).

Record World := {
  caches : CacheStorage;
  events : list Event
}.

Definition Worker (A : Type) : Type := World -> A * World.

Definition ret {A : Type} (a : A) : Worker A := fun w => (a, w).

Definition bind {A B : Type} (m : Worker A) (k : A -> Worker B) : Worker B :=
  fun w => let '(a, w') := m w in k a w'.

Declare Scope worker_scope.
Delimit Scope worker_scope with worker.
Notation "x <- m ;; k" := (bind m (fun x => k))
  (at level 61, m at next level, right associativity) : worker_scope.
Notation "m ;; k" := (bind m (fun _ => k))
  (at level 61, right associativity) : worker_scope.
Local Open Scope worker_scope.

Definition emit (e : Event) : Worker unit :=
  fun w => (tt, {| caches := caches w; events := events w ++ [e] |}).

(** [caches.match(request)] *)
Definition caches_match (request : Request) : Worker (option Response) :=
  emit (CachesMatch (url request)) ;;
  fun w => (storage_match (caches w) request, w).

(** [new Request(path)] for a path: a GET for that path on the worker's
    origin. *)
Definition request_of_path (env : Env) (path : string) : Request :=
  {| url := location_origin env ++ path; method := "GET";
     destination := ""; mode := "cors"; headers := [] |}.

(** [caches.match(path)] with a path. *)
Definition caches_match_path (env : Env) (path : string)
  : Worker (option Response) :=
  caches_match (request_of_path env path).

(** [fetch(request)]: [None] when the promise rejects. *)
Definition fetch (env : Env) (request : Request) : Worker (option Response) :=
  emit (NetworkFetch (url request)) ;;
  ret (network env request).

(** [caches.open(name).then(cache => cache.put(request, clone))], not
    awaited; a refused write changes nothing. *)
Definition caches_open_put (name : string) (request : Request)
  (response : Response) : Worker unit :=
  emit (CachePut name (url request)) ;;
  fun w =>
    (tt, {| caches :=
              storage_update (caches w) name
                (fun c => cache_put c request response);
            events := events w |}).

(** [isAuthenticated(request)], counted in the log. *)
Definition check_authenticated (env : Env) (request : Request) : Worker bool :=
  emit (PolicyCheck (url request)) ;;
  ret (isAuthenticated env request).

(** ** Values of [a || b] in the handlers

    A promise is an object, hence truthy, whatever it settles to. *)

Inductive JsValue :=
| Undefined
| AResponse (r : Response)
| APromise (settles_to : option Response).

Definition of_lookup (o : option Response) : JsValue :=
  match o with
  | Some r => AResponse r
  | None => Undefined
  end.

Definition truthy_value (v : JsValue) : bool :=
  match v with
  | Undefined => false
  | AResponse _ => true
  | APromise _ => true
  end.

Definition js_or (a b : JsValue) : JsValue :=
  if truthy_value a then a else b.

(** What a promise chain settles to when a handler returns [v]: a returned
    promise is adopted. *)
Definition resolve (v : JsValue) : option Response :=
  match v with
  | Undefined => None
  | AResponse r => Some r
  | APromise settles_to => settles_to
  end.

(** How the promise handed to [event.respondWith] settles. *)
Inductive Settled :=
| Fulfilled (v : option Response)
| Rejected.

(** What the page that issued the request gets: [respondWith] turns a
    rejection, and a fulfilment with anything but a [Response], into a
    network error. *)
Inductive ClientResult :=
| Delivered (r : Response)
| NetworkError.

Definition respondWith (s : Settled) : ClientResult :=
  match s with
  | Fulfilled (Some r) => Delivered r
  | Fulfilled None => NetworkError
  | Rejected => NetworkError
  end.

(** ** Synthesised responses *)

Definition dquote : string := String "034"%char EmptyString.

(** [JSON.stringify] of an object whose values are strings that need no
    escaping. *)
Definition JSON_stringify (fields : list (string * string)) : string :=
  ("{"
   ++ String.concat ","
        (map (fun kv =>
                dquote ++ fst kv ++ dquote ++ ":" ++ dquote ++ snd kv ++ dquote)
             fields)
   ++ "}")%string.

Definition direct_navigation_response : Response :=
  new_Response
    "<!DOCTYPE html><html><head><title>403 Forbidden</title><style>body{font-family:Arial,sans-serif;display:flex;justify-content:center;align-items:center;height:100vh;margin:0;background:#f5f5f5;}div{text-align:center;padding:2rem;background:white;border-radius:8px;box-shadow:0 2px 10px rgba(0,0,0,0.1);}h1{color:#e74c3c;margin:0 0 1rem;}p{color:#666;}</style></head><body><div><h1>&#x1F512; Access Denied</h1><p>Direct access to images is not allowed.</p><p>Please view images through the portfolio.</p></div></body></html>"
    403 "Forbidden"
    [("Content-Type", "text/html");
     ("X-Protection-Reason", "Direct navigation blocked")].

Definition unauthorized_response : Response :=
  new_Response "403 Forbidden - Image Protection Active" 403 "Forbidden"
    [("Content-Type", "text/plain");
     ("X-Protection-Reason", "Unauthorized access attempt detected")].

Definition not_found_response : Response :=
  new_Response "" 404 "" [].

Definition network_unavailable_response : Response :=
  new_Response (JSON_stringify [("error", "Network unavailable")]) 503 ""
    [("Content-Type", "application/json")].

Definition offline_response : Response :=
  new_Response "Offline - Content not available" 503 ""
    [("Content-Type", "text/plain")].

(** ** The four strategies of the [fetch] listener *)

(** Static assets: cache first. *)
Definition static_strategy (env : Env) (request : Request) : Worker Settled :=
  cached <- caches_match request ;;
  match cached with
  | Some response => ret (Fulfilled (Some response))
  | None =>
      fetched <- fetch env request ;;
      match fetched with
      | None => ret Rejected
      | Some response =>
          caches_open_put STATIC_CACHE request response ;;
          ret (Fulfilled (Some response))
      end
  end.

Definition isDirectNavigation (request : Request) : bool :=
  String.eqb (mode request) "navigate"
  || (negb (truthy (headers_get (headers request) "X-Protected-Image"))
      && String.eqb (destination request) "").

(** Images: cache first, then the direct-navigation test, the access policy
    and the network. *)
Definition image_strategy (env : Env) (request : Request) : Worker Settled :=
  cached <- caches_match request ;;
  match cached with
  | Some response => ret (Fulfilled (Some response))
  | None =>
      if isDirectNavigation request && includes (url request) "/images/" then
        ret (Fulfilled (Some direct_navigation_response))
      else
        authenticated <- check_authenticated env request ;;
        if negb authenticated then
          ret (Fulfilled (Some unauthorized_response))
        else
          fetched <- fetch env request ;;
          match fetched with
          | Some response =>
              (if ok response
               then caches_open_put IMAGES_CACHE request response
               else ret tt) ;;
              ret (Fulfilled (Some response))
          | None =>
              placeholder <- caches_match_path env "/images/placeholder.jpeg" ;;
              ret (Fulfilled
                     (resolve (js_or (APromise placeholder)
                                     (AResponse not_found_response))))
          end
  end.

(** API requests and anything that is not a GET: network only. *)
Definition dynamic_strategy (env : Env) (request : Request) : Worker Settled :=
  fetched <- fetch env request ;;
  match fetched with
  | Some response => ret (Fulfilled (Some response))
  | None => ret (Fulfilled (Some network_unavailable_response))
  end.

(** Everything else: network first, cache as a fallback. *)
Definition default_strategy (env : Env) (request : Request) : Worker Settled :=
  fetched <- fetch env request ;;
  match fetched with
  | Some response =>
      (if ok response && String.eqb (response_type response) "basic"
       then caches_open_put STATIC_CACHE request response
       else ret tt) ;;
      ret (Fulfilled (Some response))
  | None =>
      cached <- caches_match request ;;
      ret (Fulfilled
             (resolve (js_or (of_lookup cached) (AResponse offline_response))))
  end.

(** ** The [fetch] listener *)

Definition fetch_listener (env : Env) (request : Request) : Worker Settled :=
  let url := url request in
  if existsb (fun asset => endsWith url asset) STATIC_ASSETS then
    static_strategy env request
  else if String.eqb (destination request) "image" || includes url "/images/" then
    image_strategy env request
  else if includes url "/api/" || negb (String.eqb (method request) "GET") then
    dynamic_strategy env request
  else
    default_strategy env request.

(** The class of a request: which of the listener's tests it is the first
    to pass. *)
Inductive RequestClass := StaticAsset | ProtectedImage | Dynamic | Generic.

Definition classify (request : Request) : RequestClass :=
  let url := url request in
  if existsb (fun asset => endsWith url asset) STATIC_ASSETS then StaticAsset
  else if String.eqb (destination request) "image" || includes url "/images/"
  then ProtectedImage
  else if includes url "/api/" || negb (String.eqb (method request) "GET")
  then Dynamic
  else Generic.

(** Handling starts from a given cache storage and an empty log. *)
Definition start (store : CacheStorage) : World :=
  {| caches := store; events := [] |}.

Definition handle (env : Env) (store : CacheStorage) (request : Request)
  : Settled * World :=
  fetch_listener env request (start store).

(** ** Vocabulary of the specification *)

Definition contains (s p : string) : Prop := exists a b, s = (a ++ p ++ b)%string.
Definition begins_with (s p : string) : Prop := exists t, s = (p ++ t)%string.
Definition ends_with (s p : string) : Prop := exists a, s = (a ++ p)%string.

(** The automated-client signatures named by the specification. *)
Definition bot_signatures : list string :=
  ["Wget"; "curl"; "Python"; "bot"; "spider"; "crawler"; "Postman"; "HTTPie"].

Definition clockSkewTolerance : Z := 1000.

(** A token decodes to a dash-separated payload of at least two fields
    whose first field reads as the timestamp [ts] ([parseInt] is what makes
    a field numeric). *)
Definition decodes_to (token : option string) (ts : Z) : Prop :=
  exists t first rest,
    token = Some t
    /\ atob t = Some (first ++ "-" ++ rest)%string
    /\ ~ contains first "-"
    /\ parseInt first = Some ts.

(** Token validity: the lower bound exclusive, the upper bound inclusive. *)
Definition valid_token (now : Z) (token : option string) : Prop :=
  exists ts,
    decodes_to token ts
    /\ (now - maxAge < ts <= now + clockSkewTolerance)%Z.

(** Referer validity in the words of the specification: an allowed origin
    counts only when the referer is equal to it. *)
Definition referer_valid_as_specified (origin : string) (referer : option string)
  : Prop :=
  exists r,
    referer = Some r
    /\ (begins_with r origin \/ contains r "localhost" \/ In r ALLOWED_ORIGINS).

(** Referer validity with allowed origins matched as prefixes. *)
Definition referer_valid (origin : string) (referer : option string) : Prop :=
  exists r,
    referer = Some r
    /\ r <> ""
    /\ (begins_with r origin
        \/ contains r "localhost"
        \/ exists allowed, In allowed ALLOWED_ORIGINS /\ begins_with r allowed).

(** The cache called [name] holds an entry that matches [request]. *)
Definition tier_holds (s : CacheStorage) (name : string) (request : Request)
  (entry : Response) : Prop :=
  exists c, tier s name = Some c /\ cache_match c request = Some entry.

(** [header] of a response. *)
Definition response_header (r : Response) (name : string) : option string :=
  headers_get (response_headers r) name.

(** ** [btoa]

    The worker only decodes tokens; the older worker script builds them
    with [btoa], the base64 encoder of the HTML standard (RFC 4648
    alphabet, padded).  It is here to check the decoder against it. *)

Module Base64Encode.

Definition alphabet : string :=
  "ABCDEFGHIJKLMNOPQRSTUVWXYZabcdefghijklmnopqrstuvwxyz0123456789+/".

Definition b64char (v : N) : ascii :=
  match String.get (N.to_nat v) alphabet with
  | Some c => c
  | None => "="%char
  end.

(** Three bytes give four sextets; a tail of two bytes gives three (two
    zero bits appended), a tail of one byte gives two (four zero bits). *)
Fixpoint sextets_of_bytes (l : list N) : list N :=
  match l with
  | a :: b :: c :: rest =>
      let n := (a * 65536 + b * 256 + c)%N in
      (n / 262144 :: (n / 4096) mod 64 :: (n / 64) mod 64 :: n mod 64
       :: sextets_of_bytes rest)%N
  | [a; b] =>
      let n := ((a * 256 + b) * 4)%N in
      [n / 4096; (n / 64) mod 64; n mod 64]%N
  | [a] =>
      let n := (a * 16)%N in
      [n / 64; n mod 64]%N
  | [] => []
  end.

Definition padding (sextet_count : nat) : list ascii :=
  match (sextet_count mod 4)%nat with
  | 2%nat => ["="%char; "="%char]
  | 3%nat => ["="%char]
  | _ => []
  end.

Definition btoa (data : string) : string :=
  let vs := sextets_of_bytes (map N_of_ascii (list_ascii_of_string data)) in
  string_of_list_ascii (map b64char vs ++ padding (List.length vs)).

End Base64Encode.
Import Base64Encode.

(** A decimal numeral: all characters of the string are decimal digits. *)
Fixpoint all_digits (s : string) : bool :=
  match s with
  | EmptyString => true
  | String c s' =>
      ((48 <=? N_of_ascii c) && (N_of_ascii c <=? 57))%N && all_digits s'
  end.

(** ** Reading the log *)

(** The URLs fetched from the network, in order. *)
Definition fetched_urls (log : list Event) : list string :=
  flat_map (fun e => match e with NetworkFetch u => [u] | _ => [] end) log.

(** The URLs for which [isAuthenticated] was called, in order. *)
Definition policy_checked_urls (log : list Event) : list string :=
  flat_map (fun e => match e with PolicyCheck u => [u] | _ => [] end) log.

(** The cache writes that were issued: cache name and URL. *)
Definition cache_writes (log : list Event) : list (string * string) :=
  flat_map (fun e => match e with CachePut name u => [(name, u)] | _ => [] end)
    log.

(** ** Activation and background sync *)

Fixpoint for_each {A : Type} (f : A -> Worker unit) (l : list A) : Worker unit :=
  match l with
  | [] => ret tt
  | x :: rest => f x ;; for_each f rest
  end.

(** [caches.open(name)]: the cache is created when it does not exist. *)
Definition caches_open (name : string) : Worker unit :=
  fun w =>
    (tt, {| caches := storage_update (caches w) name (fun c => c);
            events := events w |}).

(** [caches.keys()] *)
Definition caches_keys : Worker (list string) :=
  fun w => (map fst (caches w), w).

(** [caches.delete(name)] *)
Definition caches_delete (name : string) : Worker unit :=
  fun w =>
    (tt, {| caches :=
              filter (fun nc => negb (String.eqb (fst nc) name)) (caches w);
            events := events w |}).

(** [cache.keys()] of the cache called [name]: the URLs of its entries. *)
Definition cache_keys (name : string) : Worker (list string) :=
  fun w =>
    (match tier (caches w) name with
     | Some c => map fst c
     | None => []
     end, w).

(** [cache.delete(request)] on the cache called [name]. *)
Definition cache_delete (name : string) (u : string) : Worker unit :=
  fun w =>
    (tt, {| caches :=
              storage_update (caches w) name
                (fun c => filter (fun kv => negb (String.eqb (fst kv) u)) c);
            events := events w |}).

(** The [activate] listener. *)
Definition activate : Worker unit :=
  cacheNames <- caches_keys ;;
  for_each
    (fun cacheName =>
       if negb (String.eqb cacheName CACHE_NAME)
          && negb (String.eqb cacheName STATIC_CACHE)
          && negb (String.eqb cacheName IMAGES_CACHE)
       then caches_delete cacheName
       else ret tt)
    cacheNames.

(** A request read back from a cache.  The storage keeps the URL of a
    stored request only; the network's answer to the stored request is then
    a function of that URL. *)
Definition request_of_key (u : string) : Request :=
  {| url := u; method := "GET"; destination := ""; mode := "cors";
     headers := [] |}.

(** One turn of the loop of [syncContactForm] and [syncAnalyticsData]. *)
Definition replay (env : Env) (name marker : string) (u : string)
  : Worker unit :=
  if includes u marker then
    fetched <- fetch env (request_of_key u) ;;
    match fetched with
    | Some response =>
        if ok response then cache_delete name u else ret tt
    | None => ret tt
    end
  else ret tt.

Definition syncContactForm (env : Env) : Worker unit :=
  caches_open "contact-form-cache" ;;
  requests <- cache_keys "contact-form-cache" ;;
  for_each (replay env "contact-form-cache" "/api/contact") requests.

Definition syncAnalyticsData (env : Env) : Worker unit :=
  caches_open "analytics-cache" ;;
  requests <- cache_keys "analytics-cache" ;;
  for_each (replay env "analytics-cache" "/api/analytics") requests.

(** The [sync] listener. *)
Definition sync_listener (env : Env) (tag : string) : Worker unit :=
  if String.eqb tag "background-sync-contact" then syncContactForm env
  else if String.eqb tag "background-sync-analytics" then syncAnalyticsData env
  else ret tt.

(** A queued request is sent again and answered with an [ok] response. *)
Definition replay_succeeds (env : Env) (u : string) : bool :=
  match network env (request_of_key u) with
  | Some response => ok response
  | None => false
  end.

(** The names of the current generation of caches. *)
Definition current_generation (name : string) : bool :=
  String.eqb name CACHE_NAME
  || String.eqb name STATIC_CACHE
  || String.eqb name IMAGES_CACHE.

(** ** Notification clicks *)

(** The [url] property of the notification's data can be any value; the
    listener only tests its truthiness and uses it as a string.  (Values
    that [includes] refuses, such as a regular expression, are not
    covered.) *)
Record JsAny := {
  is_truthy : bool;
  as_string : string
}.

Definition js_string (s : string) : JsAny :=
  {| is_truthy := negb (String.eqb s ""); as_string := s |}.

Definition js_undefined : JsAny :=
  {| is_truthy := false; as_string := "undefined" |}.

(** A client of [clients.matchAll]: its URL, and whether it has a [focus]
    method. *)
Record WindowClient := {
  client_url : string;
  has_focus : bool
}.

(** What the click leads to, besides closing the notification. *)
Inductive ClickOutcome :=
| NoNavigation
| Focused (client : WindowClient)
| Opened (target : string).

(** [notificationData.url || '/'] *)
Definition data_url_or_root (data_url : JsAny) : string :=
  if is_truthy data_url then as_string data_url else "/".

(** The URL chosen from the action; [None] when the listener returns
    early. *)
Definition click_target (action : string) (data_url : JsAny) : option string :=
  if negb (String.eqb action "") then
    if String.eqb action "view-portfolio" then Some "/portfolio"
    else if String.eqb action "contact" then Some "/?section=contact"
    else if String.eqb action "dismiss" then None
    else Some (data_url_or_root data_url)
  else Some (data_url_or_root data_url).

(** The loop over the client list. *)
Fixpoint first_match (target : string) (clientList : list WindowClient)
  : option WindowClient :=
  match clientList with
  | [] => None
  | client :: rest =>
      if includes (client_url client) target && has_focus client
      then Some client
      else first_match target rest
  end.

(** The [notificationclick] listener; [can_open] says whether
    [clients.openWindow] exists. *)
Definition notificationclick (action : string) (data_url : JsAny)
  (clientList : list WindowClient) (can_open : bool) : ClickOutcome :=
  match click_target action data_url with
  | None => NoNavigation
  | Some target =>
      match first_match target clientList with
      | Some client => Focused client
      | None => if can_open then Opened target else NoNavigation
      end
  end.

(** A client that the loop accepts for a target. *)
Definition client_matches (target : string) (client : WindowClient) : Prop :=
  contains (client_url client) target /\ has_focus client = true.

(** ** Concrete requests and environments

    The end-to-end scenarios of the specification, and the inputs on which
    the statements below are exercised. *)

Module Scenario.

Definition site : string := "https://www.abphotostudio.in".

Definition picture (content : string) : Response :=
  {| body := content; status := 200; statusText := "OK";
     response_headers := [("content-type", "image/jpeg")];
     response_type := "basic" |}.

Definition page (content : string) : Response :=
  {| body := content; status := 200; statusText := "OK";
     response_headers := [("content-type", "text/html")];
     response_type := "basic" |}.

(** The worker as deployed on the studio's site, at a fixed time. *)
Definition deployed (net : Request -> option Response) : Env :=
  {| location_origin := site;
     location_hostname := "www.abphotostudio.in";
     Date_now := 1700000000000;
     network := net |}.

Definition online (r : Response) : Env := deployed (fun _ => Some r).
Definition offline : Env := deployed (fun _ => None).

(** The same worker served from the GitHub Pages origin. *)
Definition on_github : Env :=
  {| location_origin := "https://avinashbhorphotography.github.io";
     location_hostname := "avinashbhorphotography.github.io";
     Date_now := 1700000000000;
     network := fun _ => None |}.

(** Scenario A: an [img] element of the gallery page. *)
Definition gallery_image : Request :=
  {| url := "https://www.abphotostudio.in/images/a.jpg";
     method := "GET"; destination := "image"; mode := "no-cors";
     headers := [("Referer", "https://www.abphotostudio.in/gallery")] |}.

(** Scenario B: the same URL typed into the address bar. *)
Definition typed_image : Request :=
  {| url := "https://www.abphotostudio.in/images/a.jpg";
     method := "GET"; destination := "document"; mode := "navigate";
     headers := [] |}.

(** Scenario C: the contact form. *)
Definition contact_post : Request :=
  {| url := "https://www.abphotostudio.in/api/contact";
     method := "POST"; destination := ""; mode := "cors";
     headers := [] |}.

(** A token minted at the worker's current time: base64 of
    [1700000000000-abc]. *)
Definition fresh_token : string := "MTcwMDAwMDAwMDAwMC1hYmM=".

(** Scenario D: [curl] with every header the application would send. *)
Definition curl_with_credentials : Request :=
  {| url := "https://www.abphotostudio.in/images/a.jpg";
     method := "GET"; destination := "image"; mode := "cors";
     headers := [("User-Agent", "curl/8.4.0");
                 ("Referer", "https://www.abphotostudio.in/gallery");
                 ("X-Image-Auth", "protected");
                 ("X-Session-Token", fresh_token);
                 ("X-Protected-Image", "true")] |}.

(** The application's authenticated re-fetch of an image. *)
Definition app_refetch : Request :=
  {| url := "https://www.abphotostudio.in/images/a.jpg";
     method := "GET"; destination := ""; mode := "cors";
     headers := [("Referer", "https://www.abphotostudio.in/gallery");
                 ("X-Image-Auth", "protected");
                 ("X-Session-Token", fresh_token);
                 ("X-Protected-Image", "true")] |}.

(** A navigation to the directory of images: the URL ends with [/]. *)
Definition images_directory : Request :=
  {| url := "https://www.abphotostudio.in/images/";
     method := "GET"; destination := "document"; mode := "navigate";
     headers := [] |}.

(** A page under the image path that is also a manifest entry. *)
Definition images_index : Request :=
  {| url := "https://www.abphotostudio.in/images/index.html";
     method := "GET"; destination := "image"; mode := "no-cors";
     headers := [("Referer", "https://www.abphotostudio.in/gallery")] |}.

(** A picture outside [/images/], once drawn by an [img] element and once
    read by a script. *)
Definition portrait_url : string := "https://www.abphotostudio.in/photos/b.jpg".

Definition portrait_img : Request :=
  {| url := portrait_url;
     method := "GET"; destination := "image"; mode := "no-cors";
     headers := [] |}.

Definition portrait_script : Request :=
  {| url := portrait_url;
     method := "GET"; destination := ""; mode := "cors";
     headers := [] |}.

(** An image of another site, requested with no header at all. *)
Definition external_image : Request :=
  {| url := "https://images.unsplash.com/photo-1";
     method := "GET"; destination := "image"; mode := "no-cors";
     headers := [] |}.

(** An ordinary page of the site. *)
Definition about_page : Request :=
  {| url := "https://www.abphotostudio.in/about";
     method := "GET"; destination := "document"; mode := "navigate";
     headers := [] |}.

(** The cache storage right after installation. *)
Definition installed : CacheStorage := [(STATIC_CACHE, [])].

(** The storage after [portrait_img] was answered with one picture ... *)
Definition after_first_portrait : CacheStorage :=
  caches (snd (handle (online (picture "first")) installed portrait_img)).

(** ... and then [portrait_script] with another. *)
Definition after_two_portraits : CacheStorage :=
  caches
    (snd (handle (online (picture "second")) after_first_portrait
            portrait_script)).

(** The storage once the gallery image has been cached. *)
Definition gallery_cached : CacheStorage :=
  [(STATIC_CACHE, []);
   (IMAGES_CACHE, [(url gallery_image, picture "a")])].

Definition gallery_referer : string := "https://www.abphotostudio.in/gallery".

Definition placeholder : Request :=
  request_of_path offline "/images/placeholder.jpeg".

End Scenario.

(** ** More concrete requests *)

Module Replay.

(** The start page, a manifest entry. *)
Definition index_page : Request :=
  {| url := "https://www.abphotostudio.in/index.html";
     method := "GET"; destination := "document"; mode := "navigate";
     headers := [] |}.

(** A crawler asking for a gallery image, with the page's referer. *)
Definition crawler_image : Request :=
  {| url := "https://www.abphotostudio.in/images/a.jpg";
     method := "GET"; destination := "image"; mode := "no-cors";
     headers := [("User-Agent", "Mozilla/5.0 (compatible; Googlebot/2.1)");
                 ("Referer", "https://www.abphotostudio.in/gallery")] |}.

End Replay.

(** * Properties *)

(** Case analysis on membership in a list given by its elements. *)
Ltac in_cases H :=
  simpl in H;
  repeat match type of H with _ \/ _ => destruct H as [H | H] end;
  try contradiction.

(** ** The string primitives meet their descriptions *)

Lemma startsWith_empty (s : string) : startsWith s "" = true.
Proof. destruct s; reflexivity. Qed.

Lemma startsWith_iff (s p : string) :
  startsWith s p = true <-> begins_with s p.
Proof.
  unfold begins_with. revert s.
  induction p as [|b p IH]; intros s.
  - rewrite startsWith_empty. split; [exists s; reflexivity | reflexivity].
  - destruct s as [|a s]; simpl.
    + split; [discriminate | intros [t H]; discriminate].
    + rewrite andb_true_iff, Ascii.eqb_eq, IH. split.
      * intros [-> [t ->]]. exists t. reflexivity.
      * intros [t H]. injection H as -> ->. split; [reflexivity | exists t; reflexivity].
Qed.

Lemma includes_iff (s p : string) :
  includes s p = true <-> contains s p.
Proof.
  unfold contains.
  induction s as [|c s IH]; cbn [includes]; rewrite orb_true_iff, startsWith_iff.
  - split.
    + intros [[t H] | H]; [exists "", t; exact H | discriminate].
    + intros [[|x a] [b H]]; simpl in H; [left; exists b; exact H | discriminate].
  - rewrite IH. split.
    + intros [[t H] | [a [b H]]].
      * exists "", t. exact H.
      * exists (String c a), b. simpl. now rewrite H.
    + intros [[|x a] [b H]]; simpl in H.
      * left. exists b. exact H.
      * injection H as -> ->. right. exists a, b. reflexivity.
Qed.

Lemma includes_false_iff (s p : string) :
  includes s p = false <-> ~ contains s p.
Proof.
  rewrite <- includes_iff. destruct (includes s p); split; intros H;
    solve [reflexivity | discriminate | intros H'; discriminate | exfalso; now apply H ].
Qed.

Lemma endsWith_iff (s p : string) :
  endsWith s p = true <-> ends_with s p.
Proof.
  unfold ends_with.
  induction s as [|c s IH]; cbn [endsWith]; rewrite orb_true_iff, String.eqb_eq.
  - split.
    + intros [H | H]; [exists ""; exact H | discriminate].
    + intros [[|x a] H]; simpl in H; [left; exact H | discriminate].
  - rewrite IH. split.
    + intros [H | [a H]].
      * exists "". exact H.
      * exists (String c a). simpl. now rewrite H.
    + intros [[|x a] H]; simpl in H.
      * left. exact H.
      * injection H as -> ->. right. exists a. reflexivity.
Qed.

(** [split] cuts at the first separator and goes on with the rest. *)
Section Split.

Variable sep : ascii.

Lemma split_length (s : string) :
  (1 <= List.length (split sep s))%nat.
Proof.
  induction s as [|c s IH]; simpl; [lia|].
  destruct (Ascii.eqb c sep); simpl; [lia|].
  destruct (split sep s); simpl; lia.
Qed.

Lemma split_cut (first rest : string) :
  includes first (String sep "") = false ->
  split sep (first ++ String sep rest) = first :: split sep rest.
Proof.
  induction first as [|c first IH]; simpl.
  - intros _. now rewrite Ascii.eqb_refl.
  - rewrite orb_false_iff. intros [Hc Hfirst].
    destruct (Ascii.eqb c sep) eqn:E.
    + simpl in Hc. rewrite startsWith_empty in Hc. discriminate.
    + now rewrite (IH Hfirst).
Qed.

Lemma split_cases (s : string) :
  split sep s = [s]
  \/ exists first rest,
       s = (first ++ String sep rest)%string
       /\ includes first (String sep "") = false
       /\ split sep s = first :: split sep rest.
Proof.
  induction s as [|c s IH]; simpl.
  - left. reflexivity.
  - destruct (Ascii.eqb c sep) eqn:E.
    + right. apply Ascii.eqb_eq in E. subst c.
      exists "", s. repeat split; reflexivity.
    + destruct IH as [-> | (first & rest & -> & Hfirst & ->)].
      * left. reflexivity.
      * right. exists (String c first), rest. simpl.
        rewrite E, Hfirst. repeat split; reflexivity.
Qed.

End Split.

(** ** Bot and download-tool denial *)

Lemma isDownloadAttempt_iff (ua : string) :
  isDownloadAttempt ua = true
  <-> exists sig, In sig bot_signatures /\ contains ua sig.
Proof.
  unfold isDownloadAttempt, bot_signatures.
  repeat rewrite orb_true_iff. repeat rewrite includes_iff. split.
  - intros H.
    repeat match type of H with _ \/ _ => destruct H as [H | H] end;
      eexists; (split; [| exact H]); simpl; tauto.
  - intros [sig [Hin H]]. in_cases Hin; subst sig; tauto.
Qed.

Lemma userAgent_of_header (request : Request) (ua : string) :
  headers_get (headers request) "User-Agent" = Some ua ->
  userAgent_of request = ua.
Proof.
  unfold userAgent_of, or_else, truthy. intros ->.
  destruct (String.eqb_spec ua ""); simpl; congruence.
Qed.

(** C1.  On a host that is not a local-development host, a request whose
    User-Agent header contains one of the signatures Wget, curl, Python,
    bot, spider, crawler, Postman, HTTPie is denied by [isAuthenticated],
    whatever its URL, destination, mode and other headers are: referer,
    session token, auth marker and protected flag play no part.  The
    statement holds for every request, so in particular for those the
    listener treats as images. *)
Theorem bot_user_agent_is_denied (env : Env) (request : Request)
  (ua sig : string) :
  isLocalhost env = false ->
  headers_get (headers request) "User-Agent" = Some ua ->
  In sig bot_signatures ->
  contains ua sig ->
  isAuthenticated env request = false.
Proof.
  intros Hhost Hua Hsig Hin.
  unfold isAuthenticated. rewrite Hhost.
  rewrite (userAgent_of_header _ _ Hua).
  assert (isDownloadAttempt ua = true) as ->
    by (apply isDownloadAttempt_iff; exists sig; split; assumption).
  reflexivity.
Qed.

(** Scenario D: [curl] presenting a valid referer, a fresh token and both
    markers is an image request and is denied. *)
Lemma bot_user_agent_is_denied_scenario_D :
  classify Scenario.curl_with_credentials = ProtectedImage
  /\ hasValidReferer Scenario.site (referer_of Scenario.curl_with_credentials) = true
  /\ validateToken 1700000000000 (Some Scenario.fresh_token) = true
  /\ isAuthenticated Scenario.offline Scenario.curl_with_credentials = false.
Proof.
  split; [reflexivity|]. split; [reflexivity|]. split; [reflexivity|].
  apply (bot_user_agent_is_denied Scenario.offline Scenario.curl_with_credentials
           "curl/8.4.0" "curl").
  - reflexivity.
  - reflexivity.
  - simpl. tauto.
  - exists "", "/8.4.0". reflexivity.
Defined.

(** ** Token validation *)

Lemma validateToken_no_dash (now : Z) (t decoded : string) :
  atob t = Some decoded ->
  includes decoded "-" = false ->
  validateToken now (Some t) = false.
Proof.
  intros Ha Hd. unfold validateToken.
  destruct (negb (truthy (Some t))); [reflexivity|]. rewrite Ha.
  destruct (split_cases "-"%char decoded) as [-> | (first & rest & -> & _ & _)].
  - reflexivity.
  - exfalso. apply includes_false_iff in Hd. apply Hd.
    exists first, rest. reflexivity.
Qed.

Lemma atob_of_empty : atob "" = Some "".
Proof. reflexivity. Qed.

Lemma validateToken_decoded (now : Z) (t first rest : string) :
  atob t = Some (first ++ "-" ++ rest)%string ->
  includes first "-" = false ->
  validateToken now (Some t) =
  match parseInt first with
  | Some ts => ((now - ts <? maxAge) && (ts <=? now + 1000))%Z
  | None => false
  end.
Proof.
  intros Ha Hf. unfold validateToken.
  assert (truthy (Some t) = true) as ->.
  { unfold truthy. destruct (String.eqb_spec t "") as [-> | _]; [|reflexivity].
    rewrite atob_of_empty in Ha. destruct first; discriminate. }
  simpl negb. cbv iota. rewrite Ha.
  change (first ++ "-" ++ rest)%string with (first ++ String "-"%char rest)%string.
  rewrite (split_cut _ _ _ Hf).
  pose proof (split_length "-"%char rest) as Hlen.
  destruct (split "-"%char rest) as [|f fs]; [simpl in Hlen; lia|].
  reflexivity.
Qed.

Lemma validateToken_true_iff (now : Z) (token : option string) :
  validateToken now token = true <-> valid_token now token.
Proof.
  split.
  - intros H. destruct token as [t|]; [|discriminate].
    destruct (atob t) as [decoded|] eqn:Ha.
    + destruct (split_cases "-"%char decoded)
        as [Hs | (first & rest & -> & Hf & _)].
      * unfold validateToken in H. rewrite Ha, Hs in H.
        destruct (negb (truthy (Some t))); discriminate.
      * rewrite (validateToken_decoded now t first rest Ha Hf) in H.
        destruct (parseInt first) as [ts|] eqn:Hp; [|discriminate].
        apply andb_true_iff in H. destruct H as [Hlo Hhi].
        apply Z.ltb_lt in Hlo. apply Z.leb_le in Hhi.
        exists ts. split.
        -- exists t, first, rest. apply includes_false_iff in Hf. auto.
        -- unfold clockSkewTolerance. lia.
    + unfold validateToken in H. rewrite Ha in H.
      destruct (negb (truthy (Some t))); discriminate.
  - intros (ts & (t & first & rest & -> & Ha & Hf & Hp) & Hlo & Hhi).
    apply includes_false_iff in Hf.
    rewrite (validateToken_decoded now t first rest Ha Hf), Hp.
    unfold clockSkewTolerance in Hhi.
    apply andb_true_iff. split; [apply Z.ltb_lt | apply Z.leb_le]; lia.
Qed.

(** C2, as amended.  [validateToken] accepts a token exactly when it
    base64-decodes to a dash-separated payload of at least two fields whose
    first field reads (by [parseInt]) as a timestamp [ts] with
    [now - maxAge < ts <= now + skew], where [maxAge] is five minutes and
    [skew] one second: the lower bound is exclusive, the upper bound
    inclusive.  It answers [false] for a missing or empty token, a token
    that does not decode, a payload without a dash, and a first field that
    reads as no number. *)
Theorem validateToken_window :
  (forall now token, validateToken now token = true <-> valid_token now token)
  /\ maxAge = 300000%Z /\ clockSkewTolerance = 1000%Z
  /\ (forall now token ts,
        decodes_to token ts -> ts = (now - maxAge)%Z ->
        validateToken now token = false)
  /\ (forall now token ts,
        decodes_to token ts -> ts = (now + clockSkewTolerance)%Z ->
        validateToken now token = true)
  /\ (forall now, validateToken now None = false)
  /\ (forall now, validateToken now (Some "") = false)
  /\ (forall now t, atob t = None -> validateToken now (Some t) = false)
  /\ (forall now t decoded,
        atob t = Some decoded -> ~ contains decoded "-" ->
        validateToken now (Some t) = false)
  /\ (forall now t first rest,
        atob t = Some (first ++ "-" ++ rest)%string ->
        ~ contains first "-" ->
        parseInt first = None ->
        validateToken now (Some t) = false).
Proof.
  split; [exact validateToken_true_iff|].
  split; [reflexivity|]. split; [reflexivity|].
  split.
  { intros now token ts (t & first & rest & -> & Ha & Hf & Hp) ->.
    apply includes_false_iff in Hf.
    rewrite (validateToken_decoded now t first rest Ha Hf), Hp.
    apply andb_false_iff. left. apply Z.ltb_ge. lia. }
  split.
  { intros now token ts Hd ->. apply validateToken_true_iff.
    exists (now + clockSkewTolerance)%Z. split; [exact Hd|].
    unfold maxAge, clockSkewTolerance. lia. }
  split; [reflexivity|]. split; [reflexivity|].
  split.
  { intros now t Ha. unfold validateToken. rewrite Ha.
    destruct (negb (truthy (Some t))); reflexivity. }
  split.
  { intros now t decoded Ha Hd.
    apply (validateToken_no_dash now t decoded Ha).
    now apply includes_false_iff. }
  intros now t first rest Ha Hf Hp.
  apply includes_false_iff in Hf.
  now rewrite (validateToken_decoded now t first rest Ha Hf), Hp.
Qed.

(** A token minted at the current time is accepted. *)
Lemma validateToken_window_fresh_token :
  valid_token 1700000000000 (Some Scenario.fresh_token)
  /\ validateToken 1700000000000 (Some Scenario.fresh_token) = true.
Proof.
  assert (valid_token 1700000000000 (Some Scenario.fresh_token)) as H.
  { exists 1700000000000%Z. split.
    - exists Scenario.fresh_token, "1700000000000", "abc".
      split; [reflexivity|]. split; [reflexivity|].
      split; [apply includes_false_iff|]; reflexivity.
    - unfold maxAge, clockSkewTolerance. lia. }
  split; [exact H|].
  exact (proj2 (proj1 validateToken_window 1700000000000%Z
                  (Some Scenario.fresh_token)) H).
Defined.

(** C2, as stated, fails on its fail-closed clause.  The token
    [MTcwMDAwMDAwMDAwMGFiYy14] decodes to [1700000000000abc-x].  Its first
    field is not a number: it holds letters, so it is no decimal numeral
    (and [Number] reads it as [NaN]).  [parseInt] reads its digit prefix
    all the same, and at [now = 1700000000000] the token is accepted. *)
Lemma validateToken_accepts_digit_prefix :
  atob "MTcwMDAwMDAwMDAwMGFiYy14"
  = Some ("1700000000000abc" ++ "-" ++ "x")%string
  /\ ~ contains "1700000000000abc" "-"
  /\ all_digits "1700000000000abc" = false
  /\ parseInt "1700000000000abc" = Some 1700000000000%Z
  /\ validateToken 1700000000000 (Some "MTcwMDAwMDAwMDAwMGFiYy14") = true.
Proof.
  split; [reflexivity|].
  split; [apply includes_false_iff; reflexivity|].
  repeat split; reflexivity.
Qed.

(** The lower bound of the window is exclusive: at [now = 300000] the
    token [MC14], which decodes to [0-x], is rejected. *)
Example validateToken_lower_bound_is_exclusive :
  atob "MC14" = Some "0-x" /\ validateToken 300000 (Some "MC14") = false.
Proof. split; reflexivity. Qed.

(** ** Referer validity *)

Lemma hasValidReferer_iff (origin : string) (referer : option string) :
  hasValidReferer origin referer = true <-> referer_valid origin referer.
Proof.
  unfold hasValidReferer, referer_valid. destruct referer as [r|].
  - rewrite andb_true_iff, negb_true_iff, !orb_true_iff.
    rewrite startsWith_iff, includes_iff, existsb_exists.
    split.
    + intros [Hne H]. exists r. split; [reflexivity|]. split.
      * intros ->. discriminate.
      * destruct H as [[H | H] | (allowed & Hin & H)]; [tauto | tauto |].
        right; right. exists allowed. split; [exact Hin|].
        now apply startsWith_iff.
    + intros (r' & [= <-] & Hne & H). split.
      * now apply String.eqb_neq.
      * destruct H as [H | [H | (allowed & Hin & H)]]; [tauto | tauto |].
        right. exists allowed. split; [exact Hin|].
        now apply startsWith_iff.
  - split; [discriminate | intros (r & H & _); discriminate].
Qed.

(** C6, as amended.  [hasValidReferer] holds exactly when the referer
    header is present, not empty, and starts with the serving origin, or
    contains the marker [localhost], or starts with an entry of the
    allowed-origin list.  In particular every referer that extends an
    allowed origin (a page of an allowed site) makes it true. *)
Theorem hasValidReferer_prefix_match :
  (forall origin referer,
     hasValidReferer origin referer = true <-> referer_valid origin referer)
  /\ (forall origin allowed rest,
        In allowed ALLOWED_ORIGINS ->
        hasValidReferer origin (Some (allowed ++ rest)%string) = true)
  /\ (forall env request,
        isLocalhost env = false ->
        isDownloadAttempt (userAgent_of request) = false ->
        contains (url request) "/images/" ->
        destination request = "image" ->
        isAuthenticated env request
        = hasValidReferer (location_origin env) (referer_of request)).
Proof.
  split; [exact hasValidReferer_iff|]. split.
  - intros origin allowed rest Hin. apply hasValidReferer_iff.
    exists (allowed ++ rest)%string. split; [reflexivity|]. split.
    + in_cases Hin; subst allowed; discriminate.
    + right; right. exists allowed. split; [exact Hin|]. exists rest. reflexivity.
  - intros env request Hhost Hua Hurl Hdest.
    apply includes_iff in Hurl.
    unfold isAuthenticated. rewrite Hhost, Hua, Hurl, Hdest. simpl.
    destruct (hasValidReferer _ _); [reflexivity|].
    rewrite andb_false_r. destruct (String.eqb (mode request) "navigate"); reflexivity.
Qed.

(** The gallery image of scenario A is allowed through its referer. *)
Lemma hasValidReferer_prefix_match_gallery :
  In "https://www.abphotostudio.in" ALLOWED_ORIGINS
  /\ hasValidReferer "https://avinashbhorphotography.github.io"
       (Some ("https://www.abphotostudio.in" ++ "/gallery")%string) = true.
Proof.
  assert (In "https://www.abphotostudio.in" ALLOWED_ORIGINS) as Hin
    by (simpl; tauto).
  split; [exact Hin|].
  exact (proj1 (proj2 hasValidReferer_prefix_match)
           "https://avinashbhorphotography.github.io"
           "https://www.abphotostudio.in" "/gallery" Hin).
Defined.

(** C6, as stated, fails.  Served from the GitHub Pages origin, the referer
    [https://www.abphotostudio.in/gallery] extends an allowed origin without
    being equal to any, does not start with the serving origin and does not
    contain [localhost]: it is not valid in the words of the claim, yet
    [hasValidReferer] is true and the image request is allowed. *)
Lemma hasValidReferer_accepts_extension :
  referer_of Scenario.gallery_image = Some Scenario.gallery_referer
  /\ Scenario.gallery_referer
     = ("https://www.abphotostudio.in" ++ "/gallery")%string
  /\ In "https://www.abphotostudio.in" ALLOWED_ORIGINS
  /\ ~ In Scenario.gallery_referer ALLOWED_ORIGINS
  /\ ~ begins_with Scenario.gallery_referer
        (location_origin Scenario.on_github)
  /\ ~ contains Scenario.gallery_referer "localhost"
  /\ ~ referer_valid_as_specified (location_origin Scenario.on_github)
        (Some Scenario.gallery_referer)
  /\ hasValidReferer (location_origin Scenario.on_github)
       (Some Scenario.gallery_referer) = true
  /\ isAuthenticated Scenario.on_github Scenario.gallery_image = true.
Proof.
  assert (~ In Scenario.gallery_referer ALLOWED_ORIGINS) as Hnot.
  { intros H. in_cases H; discriminate. }
  assert (~ begins_with Scenario.gallery_referer
            (location_origin Scenario.on_github)) as Hpre.
  { intros H. apply startsWith_iff in H. discriminate. }
  assert (~ contains Scenario.gallery_referer "localhost") as Hloc.
  { intros H. apply includes_iff in H. discriminate. }
  split; [reflexivity|]. split; [reflexivity|]. split; [simpl; tauto|].
  split; [exact Hnot|]. split; [exact Hpre|]. split; [exact Hloc|].
  split; [|split; reflexivity].
  intros (r & [= <-] & [H | [H | H]]); tauto.
Qed.

(** ** The listener dispatches on the class of the request *)

Lemma fetch_listener_by_class (env : Env) (request : Request) :
  fetch_listener env request =
  match classify request with
  | StaticAsset => static_strategy env request
  | ProtectedImage => image_strategy env request
  | Dynamic => dynamic_strategy env request
  | Generic => default_strategy env request
  end.
Proof.
  unfold fetch_listener, classify.
  destruct (existsb _ STATIC_ASSETS); [reflexivity|].
  destruct (_ || _); [reflexivity|].
  destruct (_ || _); reflexivity.
Qed.

Lemma classify_image (request : Request) :
  classify request = ProtectedImage ->
  existsb (fun asset => endsWith (url request) asset) STATIC_ASSETS = false
  /\ (String.eqb (destination request) "image"
      || includes (url request) "/images/") = true.
Proof.
  unfold classify.
  destruct (existsb _ STATIC_ASSETS); [discriminate|].
  destruct (String.eqb (destination request) "image" || _); [auto|].
  destruct (_ || _); discriminate.
Qed.

Lemma classify_dynamic (request : Request) :
  classify request = Dynamic ->
  (includes (url request) "/api/"
   || negb (String.eqb (method request) "GET")) = true.
Proof.
  unfold classify.
  destruct (existsb _ STATIC_ASSETS); [discriminate|].
  destruct (String.eqb (destination request) "image" || _); [discriminate|].
  destruct (_ || _); [auto | discriminate].
Qed.

Lemma classify_generic (request : Request) :
  classify request = Generic ->
  includes (url request) "/api/" = false /\ method request = "GET".
Proof.
  unfold classify.
  destruct (existsb _ STATIC_ASSETS); [discriminate|].
  destruct (String.eqb (destination request) "image" || _); [discriminate|].
  destruct (includes (url request) "/api/"); [discriminate|].
  destruct (String.eqb_spec (method request) "GET"); [auto | discriminate].
Qed.

(** ** Static assets come first *)

(** C9.  A request whose URL ends with an entry of the manifest
    [STATIC_ASSETS] is classified [StaticAsset] and is handled by the
    static cache-first strategy, whatever its destination and whether or
    not its URL also lies under [/images/]. *)
Theorem manifest_match_is_static (env : Env) (request : Request)
  (asset : string) :
  In asset STATIC_ASSETS ->
  ends_with (url request) asset ->
  classify request = StaticAsset
  /\ fetch_listener env request = static_strategy env request.
Proof.
  intros Hin Hend.
  assert (existsb (fun a => endsWith (url request) a) STATIC_ASSETS = true) as H.
  { apply existsb_exists. exists asset. split; [exact Hin|].
    now apply endsWith_iff. }
  unfold fetch_listener, classify. rewrite H. split; reflexivity.
Qed.

(** A page under [/images/] requested by an [img] element: the manifest
    entry [/index.html] wins over the image tests. *)
Lemma manifest_match_is_static_under_images :
  contains (url Scenario.images_index) "/images/"
  /\ destination Scenario.images_index = "image"
  /\ classify Scenario.images_index = StaticAsset
  /\ fetch_listener Scenario.offline Scenario.images_index
     = static_strategy Scenario.offline Scenario.images_index.
Proof.
  split; [apply includes_iff; reflexivity|]. split; [reflexivity|].
  apply (manifest_match_is_static Scenario.offline Scenario.images_index
           "/index.html").
  - simpl. tauto.
  - exists "https://www.abphotostudio.in/images". reflexivity.
Defined.

(** ** Dynamic requests *)

(** C8.  A request of class [Dynamic] (its URL contains [/api/] or its
    method is not GET) is fetched from the network and nothing else
    happens: no cache is read or written.  When the fetch fails the
    response is a 503 whose body is the JSON text of
    [{ error: 'Network unavailable' }] with content type
    [application/json]. *)
Theorem dynamic_is_network_only (env : Env) (store : CacheStorage)
  (request : Request) :
  classify request = Dynamic ->
  (contains (url request) "/api/" \/ method request <> "GET")
  /\ handle env store request
     = (Fulfilled
          (Some match network env request with
                | Some response => response
                | None => network_unavailable_response
                end),
        {| caches := store; events := [NetworkFetch (url request)] |})
  /\ status network_unavailable_response = 503%Z
  /\ body network_unavailable_response
     = ("{" ++ dquote ++ "error" ++ dquote ++ ":"
        ++ dquote ++ "Network unavailable" ++ dquote ++ "}")%string
  /\ response_header network_unavailable_response "Content-Type"
     = Some "application/json".
Proof.
  intros Hclass. split.
  - apply classify_dynamic in Hclass. apply orb_true_iff in Hclass.
    destruct Hclass as [H | H].
    + left. now apply includes_iff.
    + right. apply negb_true_iff in H. now apply String.eqb_neq.
  - split; [|repeat split; reflexivity].
    unfold handle. rewrite fetch_listener_by_class, Hclass.
    unfold dynamic_strategy, fetch, bind, emit, ret, start. simpl.
    destruct (network env request); reflexivity.
Qed.

(** Scenario C: the contact form posted while the network is down. *)
Lemma dynamic_is_network_only_scenario_C :
  classify Scenario.contact_post = Dynamic
  /\ handle Scenario.offline Scenario.installed Scenario.contact_post
     = (Fulfilled (Some network_unavailable_response),
        {| caches := Scenario.installed;
           events := [NetworkFetch (url Scenario.contact_post)] |}).
Proof.
  split; [reflexivity|].
  exact (proj1 (proj2 (dynamic_is_network_only Scenario.offline
                         Scenario.installed Scenario.contact_post eq_refl))).
Defined.

(** ** Cache storage facts *)

Lemma storage_lookup_of_tier (s : CacheStorage) (name u : string) (c : Cache)
  (entry : Response) :
  tier s name = Some c ->
  cache_lookup c u = Some entry ->
  exists served, storage_lookup s u = Some served.
Proof.
  induction s as [|[n c'] s IH]; simpl; [discriminate|].
  intros Ht Hc. destruct (cache_lookup c' u) as [r|] eqn:E.
  - exists r. reflexivity.
  - destruct (String.eqb n name).
    + injection Ht as ->. congruence.
    + apply IH; assumption.
Qed.

Lemma storage_lookup_source (s : CacheStorage) (u : string) (served : Response) :
  storage_lookup s u = Some served ->
  exists name c, In (name, c) s /\ cache_lookup c u = Some served.
Proof.
  induction s as [|[n c'] s IH]; simpl; [discriminate|].
  destruct (cache_lookup c' u) as [r|] eqn:E.
  - intros [= <-]. exists n, c'. auto.
  - intros H. destruct (IH H) as (name & c & Hin & Hc).
    exists name, c. auto.
Qed.

Lemma cache_lookup_app_miss (c : Cache) (u : string) (r : Response) :
  cache_lookup (filter (fun kv => negb (String.eqb (fst kv) u)) c ++ [(u, r)]) u
  = Some r.
Proof.
  induction c as [|[k v] c IH]; simpl.
  - now rewrite String.eqb_refl.
  - destruct (String.eqb k u) eqn:E; simpl; [exact IH|].
    now rewrite E.
Qed.

Lemma tier_storage_update (s : CacheStorage) (name : string)
  (f : Cache -> Cache) :
  tier (storage_update s name f) name
  = Some (f match tier s name with Some c => c | None => [] end).
Proof.
  induction s as [|[n c] s IH]; simpl.
  - now rewrite String.eqb_refl.
  - destruct (String.eqb n name) eqn:E; simpl; rewrite E; [reflexivity | exact IH].
Qed.

(** A write that the cache accepts is found again. *)
Lemma tier_holds_after_put (s : CacheStorage) (name : string)
  (request : Request) (response : Response) :
  method request = "GET" ->
  status response <> 206%Z ->
  tier_holds (storage_update s name (fun c => cache_put c request response))
    name request response.
Proof.
  intros Hm Hs. unfold tier_holds. rewrite tier_storage_update.
  eexists. split; [reflexivity|].
  unfold cache_match, cache_put. rewrite Hm. simpl.
  apply Z.eqb_neq in Hs. rewrite Hs. simpl.
  apply cache_lookup_app_miss.
Qed.

(** ** Images: the cache comes before everything else *)

Lemma image_strategy_hit (env : Env) (store : CacheStorage) (request : Request)
  (served : Response) :
  storage_match store request = Some served ->
  image_strategy env request (start store)
  = (Fulfilled (Some served),
     {| caches := store; events := [CachesMatch (url request)] |}).
Proof.
  intros H. unfold image_strategy, caches_match, bind, emit, ret, start.
  simpl. rewrite H. reflexivity.
Qed.

(** C3, as amended.  When the cache [IMAGES_CACHE] holds an entry matching
    an image-class request, [caches.match] finds a response (the first
    match over all caches, oldest cache first) and the handler returns it
    at once: the log holds the cache look-up and nothing else, so neither
    [isAuthenticated] nor the network is used, and the storage is left as
    it was.  Handling the same request again therefore gives the same
    response, again with no fetch, whatever the network would answer.  The
    response is the entry of [IMAGES_CACHE] whenever no cache holds a
    different entry for the request. *)
Theorem image_cache_hit (env : Env) (store : CacheStorage) (request : Request)
  (entry : Response) :
  classify request = ProtectedImage ->
  tier_holds store IMAGES_CACHE request entry ->
  exists served,
    storage_match store request = Some served
    /\ handle env store request
       = (Fulfilled (Some served),
          {| caches := store; events := [CachesMatch (url request)] |})
    /\ (forall env',
          handle env' (caches (snd (handle env store request))) request
          = (Fulfilled (Some served),
             {| caches := store; events := [CachesMatch (url request)] |}))
    /\ ((forall name c other,
           In (name, c) store -> cache_match c request = Some other ->
           other = entry) ->
        served = entry).
Proof.
  intros Hclass (c & Ht & Hc).
  unfold cache_match in Hc.
  destruct (String.eqb (method request) "GET") eqn:Hm; [|discriminate].
  destruct (storage_lookup_of_tier _ _ _ _ _ Ht Hc) as [served Hs].
  assert (storage_match store request = Some served) as Hmatch
    by (unfold storage_match; now rewrite Hm).
  assert (forall e, handle e store request
                    = (Fulfilled (Some served),
                       {| caches := store;
                          events := [CachesMatch (url request)] |})) as Hh.
  { intros e. unfold handle. rewrite fetch_listener_by_class, Hclass.
    now apply image_strategy_hit. }
  exists served. split; [exact Hmatch|]. split; [apply Hh|]. split.
  - intros env'. rewrite (Hh env). simpl. apply Hh.
  - intros Hall. destruct (storage_lookup_source _ _ _ Hs) as (name & c' & Hin & Hc').
    apply (Hall name c' served Hin). unfold cache_match. now rewrite Hm.
Qed.

(** Scenario A repeated: once the gallery image is cached, it is served
    from the cache even when the network is down. *)
Lemma image_cache_hit_gallery :
  classify Scenario.gallery_image = ProtectedImage
  /\ exists served,
       storage_match Scenario.gallery_cached Scenario.gallery_image
       = Some served
       /\ handle Scenario.offline Scenario.gallery_cached Scenario.gallery_image
          = (Fulfilled (Some served),
             {| caches := Scenario.gallery_cached;
                events := [CachesMatch (url Scenario.gallery_image)] |})
       /\ (forall env',
             handle env'
               (caches (snd (handle Scenario.offline Scenario.gallery_cached
                               Scenario.gallery_image)))
               Scenario.gallery_image
             = (Fulfilled (Some served),
                {| caches := Scenario.gallery_cached;
                   events := [CachesMatch (url Scenario.gallery_image)] |}))
       /\ ((forall name c other,
              In (name, c) Scenario.gallery_cached ->
              cache_match c Scenario.gallery_image = Some other ->
              other = Scenario.picture "a") ->
           served = Scenario.picture "a").
Proof.
  split; [reflexivity|].
  apply (image_cache_hit Scenario.offline Scenario.gallery_cached
           Scenario.gallery_image (Scenario.picture "a")).
  - reflexivity.
  - eexists. split; reflexivity.
Defined.

(** C3, as stated, fails when an older cache holds another response for
    the same URL.  The storage below is reached from the installed worker
    by two requests for the same picture, one from an [img] element
    (stored in [IMAGES_CACHE]) and one from a script (stored in
    [STATIC_CACHE]).  The [img] request then finds its entry in
    [IMAGES_CACHE], yet the handler returns the other response. *)
Lemma image_cache_hit_serves_older_tier :
  Scenario.after_two_portraits
  = [(STATIC_CACHE, [(Scenario.portrait_url, Scenario.picture "second")]);
     (IMAGES_CACHE, [(Scenario.portrait_url, Scenario.picture "first")])]
  /\ classify Scenario.portrait_img = ProtectedImage
  /\ tier_holds Scenario.after_two_portraits IMAGES_CACHE Scenario.portrait_img
       (Scenario.picture "first")
  /\ fst (handle Scenario.offline Scenario.after_two_portraits
            Scenario.portrait_img)
     = Fulfilled (Some (Scenario.picture "second"))
  /\ body (Scenario.picture "second") <> body (Scenario.picture "first").
Proof.
  split; [reflexivity|]. split; [reflexivity|]. split.
  - eexists. split; reflexivity.
  - split; [reflexivity | discriminate].
Qed.

(** ** Images: direct navigation *)

(** C4, as amended.  For a request of class [ProtectedImage] (one that no
    manifest entry claims) whose URL contains [/images/] and that misses
    the cache: if its mode is [navigate], or it has no [X-Protected-Image]
    header and its destination is empty, the handler answers with the
    synthesised 403 HTML page carrying
    [X-Protection-Reason: Direct navigation blocked].  The log holds the
    cache look-up only: [isAuthenticated] is not called and nothing is
    fetched. *)
Theorem direct_navigation_is_blocked (env : Env) (store : CacheStorage)
  (request : Request) :
  classify request = ProtectedImage ->
  contains (url request) "/images/" ->
  storage_match store request = None ->
  (mode request = "navigate"
   \/ (headers_get (headers request) "X-Protected-Image" = None
       /\ destination request = "")) ->
  handle env store request
  = (Fulfilled (Some direct_navigation_response),
     {| caches := store; events := [CachesMatch (url request)] |})
  /\ status direct_navigation_response = 403%Z
  /\ response_header direct_navigation_response "Content-Type"
     = Some "text/html"
  /\ response_header direct_navigation_response "X-Protection-Reason"
     = Some "Direct navigation blocked".
Proof.
  intros Hclass Hurl Hmiss Hnav.
  split; [|repeat split; reflexivity].
  apply includes_iff in Hurl.
  assert (isDirectNavigation request = true) as Hdirect.
  { unfold isDirectNavigation. destruct Hnav as [-> | [-> ->]]; [reflexivity|].
    apply orb_true_r. }
  unfold handle. rewrite fetch_listener_by_class, Hclass.
  unfold image_strategy, caches_match, bind, emit, ret, start. simpl.
  rewrite Hmiss, Hdirect, Hurl. reflexivity.
Qed.

(** Scenario B: the image URL typed into the address bar. *)
Lemma direct_navigation_is_blocked_scenario_B :
  classify Scenario.typed_image = ProtectedImage
  /\ handle (Scenario.online (Scenario.picture "a")) Scenario.installed
       Scenario.typed_image
     = (Fulfilled (Some direct_navigation_response),
        {| caches := Scenario.installed;
           events := [CachesMatch (url Scenario.typed_image)] |}).
Proof.
  split; [reflexivity|].
  apply (direct_navigation_is_blocked (Scenario.online (Scenario.picture "a"))
           Scenario.installed Scenario.typed_image).
  - reflexivity.
  - exists "https://www.abphotostudio.in", "a.jpg". reflexivity.
  - reflexivity.
  - left. reflexivity.
Defined.

(** C4, as stated, fails on an image path that a manifest entry claims.
    A navigation to [.../images/] misses the cache and is top-level, but
    its URL ends with [/]: the static strategy handles it, the network is
    fetched and the page is returned and cached. *)
Lemma direct_navigation_to_directory_is_fetched :
  contains (url Scenario.images_directory) "/images/"
  /\ storage_match Scenario.installed Scenario.images_directory = None
  /\ mode Scenario.images_directory = "navigate"
  /\ classify Scenario.images_directory = StaticAsset
  /\ handle (Scenario.online (Scenario.page "listing")) Scenario.installed
       Scenario.images_directory
     = (Fulfilled (Some (Scenario.page "listing")),
        {| caches :=
             [(STATIC_CACHE,
               [(url Scenario.images_directory, Scenario.page "listing")])];
           events :=
             [CachesMatch (url Scenario.images_directory);
              NetworkFetch (url Scenario.images_directory);
              CachePut STATIC_CACHE (url Scenario.images_directory)] |}).
Proof.
  split; [apply includes_iff; reflexivity|].
  repeat split; reflexivity.
Qed.

(** ** Images: the access policy and the network *)

(** What the image strategy does once the cache is missed and the
    direct-navigation test does not fire. *)
Lemma image_strategy_miss (env : Env) (store : CacheStorage) (request : Request) :
  storage_match store request = None ->
  (isDirectNavigation request && includes (url request) "/images/") = false ->
  image_strategy env request (start store)
  = if isAuthenticated env request then
      match network env request with
      | Some response =>
          (Fulfilled (Some response),
           if ok response then
             {| caches :=
                  storage_update store IMAGES_CACHE
                    (fun c => cache_put c request response);
                events := [CachesMatch (url request); PolicyCheck (url request);
                           NetworkFetch (url request);
                           CachePut IMAGES_CACHE (url request)] |}
           else
             {| caches := store;
                events := [CachesMatch (url request); PolicyCheck (url request);
                           NetworkFetch (url request)] |})
      | None =>
          (Fulfilled
             (storage_match store
                (request_of_path env "/images/placeholder.jpeg")),
           {| caches := store;
              events := [CachesMatch (url request); PolicyCheck (url request);
                         NetworkFetch (url request);
                         CachesMatch
                           (url (request_of_path env
                                   "/images/placeholder.jpeg"))] |})
      end
    else
      (Fulfilled (Some unauthorized_response),
       {| caches := store;
          events := [CachesMatch (url request); PolicyCheck (url request)] |}).
Proof.
  intros Hmiss Hnav.
  unfold image_strategy, caches_match_path, caches_match, check_authenticated,
    fetch, caches_open_put, bind, emit, ret, start.
  simpl. rewrite Hmiss, Hnav.
  destruct (isAuthenticated env request); simpl; [|reflexivity].
  destruct (network env request) as [response|]; simpl; [|reflexivity].
  destruct (ok response); reflexivity.
Qed.

(** The fallback of the image strategy: the look-up of the placeholder is
    a promise, hence truthy, so the 404 on its right is never chosen. *)
Lemma placeholder_or_404 (lookup : option Response) :
  resolve (js_or (APromise lookup) (AResponse not_found_response)) = lookup.
Proof. reflexivity. Qed.

(** C5, on the code.  An allowed image request (scenario A) whose fetch
    fails while the cache holds no placeholder: the handler's promise is
    fulfilled with [undefined], not with a 404 response, and
    [respondWith] hands the page a network error. *)
Theorem image_fetch_failure_without_placeholder :
  classify Scenario.gallery_image = ProtectedImage
  /\ isAuthenticated Scenario.offline Scenario.gallery_image = true
  /\ network Scenario.offline Scenario.gallery_image = None
  /\ storage_match Scenario.installed Scenario.placeholder = None
  /\ handle Scenario.offline Scenario.installed Scenario.gallery_image
     = (Fulfilled None,
        {| caches := Scenario.installed;
           events := [CachesMatch (url Scenario.gallery_image);
                      PolicyCheck (url Scenario.gallery_image);
                      NetworkFetch (url Scenario.gallery_image);
                      CachesMatch (url Scenario.placeholder)] |})
  /\ respondWith
       (fst (handle Scenario.offline Scenario.installed Scenario.gallery_image))
     = NetworkError
  /\ fst (handle Scenario.offline Scenario.installed Scenario.gallery_image)
     <> Fulfilled (Some not_found_response).
Proof.
  repeat split; try reflexivity. discriminate.
Qed.

(** The part of C5 that the code keeps: with a placeholder in the cache,
    a failed fetch of an allowed image request is answered with it. *)
Lemma image_fetch_failure_with_placeholder (env : Env) (store : CacheStorage)
  (request : Request) (placeholder : Response) :
  classify request = ProtectedImage ->
  storage_match store request = None ->
  (isDirectNavigation request && includes (url request) "/images/") = false ->
  isAuthenticated env request = true ->
  network env request = None ->
  storage_match store (request_of_path env "/images/placeholder.jpeg")
  = Some placeholder ->
  respondWith (fst (handle env store request)) = Delivered placeholder.
Proof.
  intros Hclass Hmiss Hnav Hauth Hnet Hp.
  unfold handle. rewrite fetch_listener_by_class, Hclass.
  rewrite (image_strategy_miss env store request Hmiss Hnav), Hauth, Hnet.
  simpl. now rewrite Hp.
Qed.

(** C10.  An image-class request whose URL does not contain [/images/]
    (so its destination is [image]), on a host that is not a
    local-development host, with a user agent that contains no bot
    signature: [isAuthenticated] is true whatever the headers are.  When
    such a request misses the cache it is fetched from the network, and a
    response of the network is returned (and cached when [ok]). *)
Theorem image_outside_images_path_is_fetched (env : Env) (store : CacheStorage)
  (request : Request) :
  classify request = ProtectedImage ->
  ~ contains (url request) "/images/" ->
  isLocalhost env = false ->
  (forall sig, In sig bot_signatures -> ~ contains (userAgent_of request) sig) ->
  storage_match store request = None ->
  destination request = "image"
  /\ isAuthenticated env request = true
  /\ In (NetworkFetch (url request)) (events (snd (handle env store request)))
  /\ (forall response,
        network env request = Some response ->
        handle env store request
        = (Fulfilled (Some response),
           if ok response then
             {| caches :=
                  storage_update store IMAGES_CACHE
                    (fun c => cache_put c request response);
                events := [CachesMatch (url request); PolicyCheck (url request);
                           NetworkFetch (url request);
                           CachePut IMAGES_CACHE (url request)] |}
           else
             {| caches := store;
                events := [CachesMatch (url request); PolicyCheck (url request);
                           NetworkFetch (url request)] |})).
Proof.
  intros Hclass Hurl Hhost Hua Hmiss.
  apply includes_false_iff in Hurl.
  assert (isDownloadAttempt (userAgent_of request) = false) as Hbot.
  { destruct (isDownloadAttempt (userAgent_of request)) eqn:E; [|reflexivity].
    apply isDownloadAttempt_iff in E. destruct E as (sig & Hin & Hc).
    exfalso. exact (Hua sig Hin Hc). }
  assert (isAuthenticated env request = true) as Hauth.
  { unfold isAuthenticated. now rewrite Hhost, Hbot, Hurl. }
  assert ((isDirectNavigation request && includes (url request) "/images/")
          = false) as Hnav by (rewrite Hurl; apply andb_false_r).
  split.
  { destruct (classify_image request Hclass) as [_ H].
    rewrite Hurl, orb_false_r in H. now apply String.eqb_eq. }
  split; [exact Hauth|].
  unfold handle. rewrite fetch_listener_by_class, Hclass.
  rewrite (image_strategy_miss env store request Hmiss Hnav), Hauth.
  split.
  - destruct (network env request) as [response|]; [destruct (ok response)|];
      simpl; tauto.
  - intros response ->. reflexivity.
Qed.

(** An image of another site, requested with no header at all. *)
Lemma image_outside_images_path_is_fetched_external :
  headers Scenario.external_image = []
  /\ isAuthenticated (Scenario.online (Scenario.picture "x"))
       Scenario.external_image = true
  /\ In (NetworkFetch (url Scenario.external_image))
       (events (snd (handle (Scenario.online (Scenario.picture "x"))
                       Scenario.installed Scenario.external_image))).
Proof.
  split; [reflexivity|].
  assert (forall sig, In sig bot_signatures ->
            ~ contains (userAgent_of Scenario.external_image) sig) as Hua.
  { intros sig Hin Hc. apply includes_iff in Hc.
    in_cases Hin; subst sig; discriminate. }
  assert (~ contains (url Scenario.external_image) "/images/") as Hurl.
  { intros H. apply includes_iff in H. discriminate. }
  destruct (image_outside_images_path_is_fetched
              (Scenario.online (Scenario.picture "x")) Scenario.installed
              Scenario.external_image eq_refl Hurl eq_refl Hua eq_refl)
    as (_ & Hauth & Hfetch & _).
  split; [exact Hauth | exact Hfetch].
Defined.

(** ** Everything else: network first *)

(** C7, as amended.  A request of class [Generic] is a GET and is fetched
    from the network first.  A response that is [ok] and of type [basic]
    is written to the cache [STATIC_CACHE] (the write is issued and not
    awaited; unless the status is 206 the entry is then held by that
    cache) and returned; any other response is returned as it is.  When
    the fetch fails, the handler returns the first entry that matches the
    request in any cache ([caches.match] looks through all of them), and
    without one a 503 with the plain-text body
    [Offline - Content not available]. *)
Theorem default_is_network_first (env : Env) (store : CacheStorage)
  (request : Request) :
  classify request = Generic ->
  method request = "GET"
  /\ (forall response,
        network env request = Some response ->
        (ok response && String.eqb (response_type response) "basic") = true ->
        handle env store request
        = (Fulfilled (Some response),
           {| caches :=
                storage_update store STATIC_CACHE
                  (fun c => cache_put c request response);
              events := [NetworkFetch (url request);
                         CachePut STATIC_CACHE (url request)] |})
        /\ (status response <> 206%Z ->
            tier_holds
              (storage_update store STATIC_CACHE
                 (fun c => cache_put c request response))
              STATIC_CACHE request response))
  /\ (forall response,
        network env request = Some response ->
        (ok response && String.eqb (response_type response) "basic") = false ->
        handle env store request
        = (Fulfilled (Some response),
           {| caches := store; events := [NetworkFetch (url request)] |}))
  /\ (network env request = None ->
      handle env store request
      = (Fulfilled
           (Some match storage_match store request with
                 | Some cached => cached
                 | None => offline_response
                 end),
         {| caches := store;
            events := [NetworkFetch (url request);
                       CachesMatch (url request)] |}))
  /\ status offline_response = 503%Z
  /\ body offline_response = "Offline - Content not available"
  /\ response_header offline_response "Content-Type" = Some "text/plain".
Proof.
  intros Hclass.
  destruct (classify_generic request Hclass) as [_ Hget].
  split; [exact Hget|].
  unfold handle. rewrite fetch_listener_by_class, Hclass.
  unfold default_strategy, caches_match, fetch, caches_open_put, bind, emit,
    ret, start.
  simpl. split; [|split; [|split]].
  - intros response -> ->. split; [reflexivity|].
    intros Hstatus. now apply tier_holds_after_put.
  - intros response -> ->. reflexivity.
  - intros ->. simpl. destruct (storage_match store request); reflexivity.
  - repeat split; reflexivity.
Qed.

(** An ordinary page: cached on success, served from the cache when the
    network is down. *)
Lemma default_is_network_first_about_page :
  classify Scenario.about_page = Generic
  /\ method Scenario.about_page = "GET"
  /\ handle Scenario.offline
       [(STATIC_CACHE, [(url Scenario.about_page, Scenario.page "about")])]
       Scenario.about_page
     = (Fulfilled (Some (Scenario.page "about")),
        {| caches :=
             [(STATIC_CACHE, [(url Scenario.about_page, Scenario.page "about")])];
           events := [NetworkFetch (url Scenario.about_page);
                      CachesMatch (url Scenario.about_page)] |}).
Proof.
  split; [reflexivity|].
  destruct (default_is_network_first Scenario.offline
              [(STATIC_CACHE, [(url Scenario.about_page, Scenario.page "about")])]
              Scenario.about_page eq_refl)
    as (Hget & _ & _ & Hfail & _).
  split; [exact Hget | exact (Hfail eq_refl)].
Defined.

(** C7, as stated, fails on the fallback.  After the portrait was drawn by
    an [img] element it is held by [IMAGES_CACHE] only: [STATIC_CACHE],
    where the default strategy writes, is empty and no cache is called
    [CACHE_NAME].  A script's request for the portrait is of class
    [Generic]; when its fetch fails, the handler returns the entry of
    [IMAGES_CACHE] and not the 503. *)
Lemma default_fallback_reads_every_tier :
  Scenario.after_first_portrait
  = [(STATIC_CACHE, []);
     (IMAGES_CACHE, [(Scenario.portrait_url, Scenario.picture "first")])]
  /\ classify Scenario.portrait_script = Generic
  /\ network Scenario.offline Scenario.portrait_script = None
  /\ tier Scenario.after_first_portrait STATIC_CACHE = Some []
  /\ tier Scenario.after_first_portrait CACHE_NAME = None
  /\ fst (handle Scenario.offline Scenario.after_first_portrait
            Scenario.portrait_script)
     = Fulfilled (Some (Scenario.picture "first"))
  /\ status (Scenario.picture "first") = 200%Z.
Proof.
  repeat split; reflexivity.
Qed.

(** ** Sanity checks of the platform functions *)

Example atob_padded : atob "aGVsbG8=" = Some "hello".
Proof. reflexivity. Qed.

Example atob_ignores_whitespace : atob " MC 14 " = Some "0-x".
Proof. reflexivity. Qed.

Example atob_rejects_bad_length : atob "a" = None.
Proof. reflexivity. Qed.

Example atob_rejects_bad_character : atob "MC1*" = None.
Proof. reflexivity. Qed.

Example parseInt_reads_a_prefix : parseInt "1700000000000abc" = Some 1700000000000%Z.
Proof. reflexivity. Qed.

Example parseInt_reads_hexadecimal : parseInt "  0x1Fz" = Some 31%Z.
Proof. reflexivity. Qed.

Example parseInt_not_a_number : parseInt "abc" = None.
Proof. reflexivity. Qed.

Example split_keeps_empty_fields : split "-"%char "12-ab-" = ["12"; "ab"; ""].
Proof. reflexivity. Qed.

Example headers_get_ignores_case :
  headers_get [("user-agent", "curl/8.4.0")] "User-Agent" = Some "curl/8.4.0".
Proof. reflexivity. Qed.

(** Scenario A: the gallery image is fetched, returned and cached. *)
Example scenario_A :
  handle (Scenario.online (Scenario.picture "a")) Scenario.installed
    Scenario.gallery_image
  = (Fulfilled (Some (Scenario.picture "a")),
     {| caches := Scenario.gallery_cached;
        events := [CachesMatch (url Scenario.gallery_image);
                   PolicyCheck (url Scenario.gallery_image);
                   NetworkFetch (url Scenario.gallery_image);
                   CachePut IMAGES_CACHE (url Scenario.gallery_image)] |}).
Proof. reflexivity. Qed.

(** The application's re-fetch with a fresh token and both markers is
    allowed. *)
Example app_refetch_is_allowed :
  isAuthenticated Scenario.offline Scenario.app_refetch = true.
Proof. reflexivity. Qed.

(** ** The decoder undoes the encoder *)

(** Induction on lists three elements at a time. *)
Lemma list_ind3 (A : Type) (P : list A -> Prop) :
  P [] ->
  (forall a, P [a]) ->
  (forall a b, P [a; b]) ->
  (forall a b c l, P l -> P (a :: b :: c :: l)) ->
  forall l, P l.
Proof.
  intros H0 H1 H2 H3 l.
  assert (P l /\ (forall a, P (a :: l)) /\ (forall a b, P (a :: b :: l))) as H.
  { induction l as [|x l (IH0 & IH1 & IH2)].
    - auto.
    - split; [apply IH1|]. split; [intros a; apply IH2|].
      intros a b. apply H3. exact IH0. }
  exact (proj1 H).
Qed.

Lemma sextet_of_b64char (v : N) :
  (v < 64)%N -> sextet (b64char v) = Some v.
Proof.
  intros Hv.
  assert (forallb (fun n => match sextet (b64char (N.of_nat n)) with
                            | Some w => N.eqb w (N.of_nat n)
                            | None => false
                            end) (seq 0 64) = true) as Hall
    by (vm_compute; reflexivity).
  rewrite forallb_forall in Hall.
  specialize (Hall (N.to_nat v)).
  rewrite N2Nat.id in Hall.
  assert (In (N.to_nat v) (seq 0 64)) as Hin by (apply in_seq; lia).
  specialize (Hall Hin).
  destruct (sextet (b64char v)) as [w|]; [|discriminate].
  apply N.eqb_eq in Hall. now subst w.
Qed.

Lemma b64char_not_whitespace (v : N) :
  (v < 64)%N -> isAsciiWhitespace (b64char v) = false.
Proof.
  intros Hv. pose proof (sextet_of_b64char v Hv) as H.
  destruct (isAsciiWhitespace (b64char v)) eqn:E; [|reflexivity].
  exfalso. revert H E. generalize (b64char v). intros c.
  destruct c as [[] [] [] [] [] [] [] []]; vm_compute; congruence.
Qed.

Lemma b64char_not_pad (v : N) :
  (v < 64)%N -> b64char v <> "="%char.
Proof.
  intros Hv E. pose proof (sextet_of_b64char v Hv) as H.
  rewrite E in H. discriminate.
Qed.

Lemma sextets_of_b64chars (vs : list N) :
  Forall (fun v => (v < 64)%N) vs -> sextets (map b64char vs) = Some vs.
Proof.
  induction 1 as [|v vs Hv _ IH]; simpl; [reflexivity|].
  now rewrite (sextet_of_b64char v Hv), IH.
Qed.

Ltac divmod := zify; Z.to_euclidean_division_equations; lia.

Lemma sextets_in_range (l : list N) :
  Forall (fun b => (b < 256)%N) l ->
  Forall (fun v => (v < 64)%N) (sextets_of_bytes l).
Proof.
  induction l as [| a | a b | a b c l IH] using list_ind3; intros H.
  - constructor.
  - inversion_clear H. cbn [sextets_of_bytes]. cbv zeta.
    repeat (apply Forall_cons; [divmod|]). apply Forall_nil.
  - inversion_clear H as [|? ? Ha H']. inversion_clear H'.
    cbn [sextets_of_bytes]. cbv zeta.
    repeat (apply Forall_cons; [divmod|]). apply Forall_nil.
  - inversion_clear H as [|? ? Ha H']. inversion_clear H' as [|? ? Hb H''].
    inversion_clear H'' as [|? ? Hc Hl].
    cbn [sextets_of_bytes]. cbv zeta.
    repeat (apply Forall_cons; [divmod|]). now apply IH.
Qed.

Lemma sextets_count (l : list N) :
  (List.length (sextets_of_bytes l) mod 4 <> 1)%nat.
Proof.
  induction l as [| a | a b | a b c l IH] using list_ind3;
    cbn [sextets_of_bytes List.length]; cbv zeta; cbn [List.length];
    try (vm_compute; discriminate).
  revert IH. generalize (List.length (sextets_of_bytes l)). intros n IH. divmod.
Qed.

Lemma ascii_of_code (a : ascii) (n : N) :
  n = N_of_ascii a -> ascii_of_N n = a.
Proof. intros ->. apply ascii_N_embedding. Qed.

Lemma bytes_of_sextets_of_bytes (l : list ascii) :
  bytes_of_sextets (sextets_of_bytes (map N_of_ascii l))
  = string_of_list_ascii l.
Proof.
  induction l as [| a | a b | a b c l IH] using list_ind3.
  - reflexivity.
  - pose proof (N_ascii_bounded a).
    cbn [map sextets_of_bytes bytes_of_sextets string_of_list_ascii].
    cbv zeta. unfold byte.
    f_equal. apply ascii_of_code. divmod.
  - pose proof (N_ascii_bounded a). pose proof (N_ascii_bounded b).
    cbn [map sextets_of_bytes bytes_of_sextets string_of_list_ascii].
    cbv zeta. unfold byte.
    f_equal; [apply ascii_of_code; divmod|].
    f_equal. apply ascii_of_code. divmod.
  - pose proof (N_ascii_bounded a). pose proof (N_ascii_bounded b).
    pose proof (N_ascii_bounded c).
    cbn [map sextets_of_bytes bytes_of_sextets string_of_list_ascii].
    cbv zeta. unfold byte. rewrite IH.
    f_equal; [apply ascii_of_code; divmod|].
    f_equal; [apply ascii_of_code; divmod|].
    f_equal. apply ascii_of_code. divmod.
Qed.

Lemma filter_all (A : Type) (f : A -> bool) (l : list A) :
  Forall (fun x => f x = true) l -> filter f l = l.
Proof.
  induction 1 as [|x l Hx _ IH]; simpl; [reflexivity|].
  now rewrite Hx, IH.
Qed.

Lemma strip_keeps (c : ascii) (r l : list ascii) :
  c <> "="%char ->
  match c :: r with
  | "="%char :: "="%char :: r0 => rev r0
  | "="%char :: r0 => rev r0
  | _ => l
  end = l.
Proof.
  intros H.
  destruct c as [[] [] [] [] [] [] [] []]; try reflexivity.
  exfalso. now apply H.
Qed.

Lemma strip_one (c : ascii) (r l : list ascii) :
  c <> "="%char ->
  match "="%char :: c :: r with
  | "="%char :: "="%char :: r0 => rev r0
  | "="%char :: r0 => rev r0
  | _ => l
  end = rev (c :: r).
Proof.
  intros H.
  destruct c as [[] [] [] [] [] [] [] []]; try reflexivity.
  exfalso. now apply H.
Qed.

Lemma strip_padding_of_padded (cs : list ascii) :
  Forall (fun c => c <> "="%char) cs ->
  (List.length cs mod 4 <> 1)%nat ->
  strip_padding (cs ++ padding (List.length cs)) = cs.
Proof.
  intros Hcs Hlen. unfold strip_padding, padding.
  rewrite length_app.
  assert (Forall (fun c => c <> "="%char) (rev cs)) as Hrev
    by now apply Forall_rev.
  destruct (List.length cs mod 4)%nat as [|[|[|[|k]]]] eqn:E.
  - rewrite app_nil_r. cbn [List.length]. rewrite Nat.add_0_r, E.
    cbn [Nat.eqb].
    destruct (rev cs) as [|c r]; [reflexivity|].
    apply Forall_inv in Hrev. now apply strip_keeps.
  - congruence.
  - cbn [List.length].
    assert (((List.length cs + 2) mod 4 =? 0)%nat = true) as ->
      by (apply Nat.eqb_eq; divmod).
    rewrite rev_app_distr. cbn [rev app]. apply rev_involutive.
  - cbn [List.length].
    assert (((List.length cs + 1) mod 4 =? 0)%nat = true) as ->
      by (apply Nat.eqb_eq; divmod).
    rewrite rev_app_distr. cbn [rev app].
    destruct (rev cs) as [|c r] eqn:Er.
    + apply (f_equal (@List.length ascii)) in Er.
      rewrite length_rev in Er. rewrite Er in E. discriminate.
    + apply Forall_inv in Hrev. rewrite (strip_one c r (cs ++ ["="%char]) Hrev).
      rewrite <- Er. apply rev_involutive.
  - exfalso. pose proof (Nat.mod_upper_bound (List.length cs) 4). lia.
Qed.

(** [atob] undoes [btoa]: every string survives the round trip. *)
Lemma atob_btoa (data : string) : atob (btoa data) = Some data.
Proof.
  unfold atob, btoa.
  set (bytes := map N_of_ascii (list_ascii_of_string data)).
  assert (Forall (fun v => (v < 64)%N) (sextets_of_bytes bytes)) as Hvs.
  { apply sextets_in_range. subst bytes. apply Forall_forall.
    intros b Hb. apply in_map_iff in Hb. destruct Hb as (c & <- & _).
    apply N_ascii_bounded. }
  set (vs := sextets_of_bytes bytes) in *.
  rewrite list_ascii_of_string_of_list_ascii.
  assert (Forall (fun c => negb (isAsciiWhitespace c) = true)
            (map b64char vs ++ padding (List.length vs))) as Hws.
  { apply Forall_app. split.
    - apply Forall_forall. intros c Hc. apply in_map_iff in Hc.
      destruct Hc as (v & <- & Hv). rewrite Forall_forall in Hvs.
      now rewrite b64char_not_whitespace by auto.
    - unfold padding.
      destruct (List.length vs mod 4)%nat as [|[|[|[|k]]]];
        repeat constructor. }
  rewrite (filter_all _ _ _ Hws).
  rewrite <- (length_map b64char vs).
  rewrite strip_padding_of_padded.
  - rewrite length_map.
    assert ((List.length vs mod 4 =? 1)%nat = false) as ->
      by (apply Nat.eqb_neq; apply sextets_count).
    rewrite (sextets_of_b64chars vs Hvs).
    subst vs bytes. rewrite bytes_of_sextets_of_bytes.
    now rewrite string_of_list_ascii_of_string.
  - apply Forall_forall. intros c Hc. apply in_map_iff in Hc.
    destruct Hc as (v & <- & Hv). rewrite Forall_forall in Hvs.
    apply b64char_not_pad. auto.
  - rewrite length_map. apply sextets_count.
Qed.

(** ** Tokens expire *)

(** A token accepted at one time is rejected at every time that lies
    [maxAge] plus one second or more away, later or earlier. *)
Theorem accepted_token_expires (now other : Z) (token : option string) :
  validateToken now token = true ->
  (now + maxAge + 1000 <= other \/ other + maxAge + 1000 <= now)%Z ->
  validateToken other token = false.
Proof.
  intros Hnow Hfar.
  apply validateToken_true_iff in Hnow.
  destruct Hnow as (ts & (t & first & rest & -> & Ha & Hf & Hp) & Hlo & Hhi).
  apply includes_false_iff in Hf.
  rewrite (validateToken_decoded other t first rest Ha Hf), Hp.
  unfold clockSkewTolerance in Hhi.
  apply andb_false_iff. destruct Hfar as [H | H].
  - left. apply Z.ltb_ge. lia.
  - right. apply Z.leb_gt. lia.
Qed.

Lemma accepted_token_expires_after_five_minutes :
  validateToken 1700000000000 (Some Scenario.fresh_token) = true
  /\ validateToken 1700000301000 (Some Scenario.fresh_token) = false.
Proof.
  assert (validateToken 1700000000000 (Some Scenario.fresh_token) = true)
    as H by reflexivity.
  split; [exact H|].
  apply (accepted_token_expires 1700000000000 1700000301000 _ H).
  left. unfold maxAge. lia.
Defined.

(** ** The decision of [isAuthenticated], case by case *)

Lemma hasValidAuth_iff (now : Z) (authHeader sessionToken protectedFlag : option string) :
  hasValidAuth now authHeader sessionToken protectedFlag = true
  <-> authHeader = Some "protected"
      /\ protectedFlag = Some "true"
      /\ valid_token now sessionToken.
Proof.
  unfold hasValidAuth. rewrite !andb_true_iff, validateToken_true_iff. split.
  - intros (((Ha & _) & Ht) & Hf). repeat split; [| |exact Ht].
    + destruct authHeader as [a|]; [|discriminate].
      apply String.eqb_eq in Ha. now subst a.
    + destruct protectedFlag as [f|]; [|discriminate].
      apply String.eqb_eq in Hf. now subst f.
  - intros (-> & -> & Ht). repeat split; try reflexivity; [|exact Ht].
    destruct Ht as (ts & (t & first & rest & -> & Ha & _) & _).
    unfold truthy. destruct (String.eqb_spec t "") as [-> | _]; [|reflexivity].
    rewrite atob_of_empty in Ha. destruct first; discriminate.
Qed.

(** [isAuthenticated] allows a request exactly in these cases: the worker
    runs on a local-development host; or the user agent carries no bot
    signature and either the URL does not contain [/images/], or the
    referer is valid and the request is an image load or carries both
    markers and a valid token. *)
Theorem isAuthenticated_decision (env : Env) (request : Request) :
  isAuthenticated env request = true
  <-> isLocalhost env = true
      \/ ((forall sig, In sig bot_signatures ->
             ~ contains (userAgent_of request) sig)
          /\ (~ contains (url request) "/images/"
              \/ (referer_valid (location_origin env) (referer_of request)
                  /\ (destination request = "image"
                      \/ (headers_get (headers request) "X-Image-Auth"
                          = Some "protected"
                          /\ headers_get (headers request) "X-Protected-Image"
                             = Some "true"
                          /\ valid_token (Date_now env)
                               (headers_get (headers request)
                                  "X-Session-Token")))))).
Proof.
  unfold isAuthenticated.
  destruct (isLocalhost env); [split; auto|].
  assert (isDownloadAttempt (userAgent_of request) = false
          <-> forall sig, In sig bot_signatures ->
                ~ contains (userAgent_of request) sig) as Hbot.
  { split.
    - intros E sig Hin Hc.
      assert (isDownloadAttempt (userAgent_of request) = true)
        by (apply isDownloadAttempt_iff; eauto).
      congruence.
    - intros H. destruct (isDownloadAttempt _) eqn:E; [|reflexivity].
      apply isDownloadAttempt_iff in E. destruct E as (sig & Hin & Hc).
      exfalso. exact (H sig Hin Hc). }
  destruct (isDownloadAttempt (userAgent_of request)) eqn:Ebot.
  { split; [discriminate|]. intros [H | [H _]]; [discriminate|].
    apply Hbot in H. discriminate. }
  assert (forall sig, In sig bot_signatures ->
            ~ contains (userAgent_of request) sig) as Hclean
    by now apply Hbot.
  destruct (includes (url request) "/images/") eqn:Eurl.
  - apply includes_iff in Eurl.
    pose proof (hasValidReferer_iff (location_origin env) (referer_of request))
      as Href.
    pose proof (hasValidAuth_iff (Date_now env)
                  (headers_get (headers request) "X-Image-Auth")
                  (headers_get (headers request) "X-Session-Token")
                  (headers_get (headers request) "X-Protected-Image"))
      as Hauth.
    destruct (hasValidReferer _ _).
    + destruct (String.eqb_spec (destination request) "image") as [Hd | Hd].
      * simpl. split; [|reflexivity]. intros _. right. split; [exact Hclean|].
        right. split; [now apply Href | now left].
      * simpl. destruct (hasValidAuth _ _ _ _).
        -- simpl. split; [|reflexivity]. intros _. right. split; [exact Hclean|].
           right. split; [now apply Href|]. right. now apply Hauth.
        -- simpl. split.
           ++ destruct (String.eqb (mode request) "navigate"); discriminate.
           ++ intros [H | [_ [H | [_ [H | H]]]]]; try discriminate;
                try contradiction.
              apply Hauth in H. discriminate.
    + rewrite !andb_false_r. split.
      * destruct (String.eqb (mode request) "navigate"); discriminate.
      * intros [H | [_ [H | [H _]]]]; try discriminate; try contradiction.
        apply Href in H. discriminate.
  - apply includes_false_iff in Eurl. split; [|reflexivity].
    intros _. right. split; [exact Hclean | now left].
Qed.

(** The decision depends on the URL, the destination and the headers of
    the request only: its mode and method play no part. *)
Theorem isAuthenticated_ignores_mode (env : Env) (r1 r2 : Request) :
  url r1 = url r2 ->
  destination r1 = destination r2 ->
  headers r1 = headers r2 ->
  isAuthenticated env r1 = isAuthenticated env r2.
Proof.
  intros Hu Hd Hh.
  unfold isAuthenticated, userAgent_of, referer_of. rewrite Hu, Hd, Hh.
  destruct (String.eqb (mode r1) "navigate"),
           (String.eqb (mode r2) "navigate"); reflexivity.
Qed.

(** The navigation of scenario B gets the same decision as a POST made by
    a script with the same URL, destination and headers. *)
Lemma isAuthenticated_ignores_mode_navigation :
  isAuthenticated Scenario.offline Scenario.typed_image
  = isAuthenticated Scenario.offline
      {| url := url Scenario.typed_image; method := "POST";
         destination := destination Scenario.typed_image; mode := "cors";
         headers := headers Scenario.typed_image |}.
Proof.
  apply (isAuthenticated_ignores_mode Scenario.offline); reflexivity.
Defined.

(** ** What each strategy does, branch by branch *)

Lemma static_strategy_run (env : Env) (store : CacheStorage) (request : Request) :
  static_strategy env request (start store)
  = match storage_match store request with
    | Some cached =>
        (Fulfilled (Some cached),
         {| caches := store; events := [CachesMatch (url request)] |})
    | None =>
        match network env request with
        | Some response =>
            (Fulfilled (Some response),
             {| caches :=
                  storage_update store STATIC_CACHE
                    (fun c => cache_put c request response);
                events := [CachesMatch (url request);
                           NetworkFetch (url request);
                           CachePut STATIC_CACHE (url request)] |})
        | None =>
            (Rejected,
             {| caches := store;
                events := [CachesMatch (url request);
                           NetworkFetch (url request)] |})
        end
    end.
Proof.
  unfold static_strategy, caches_match, fetch, caches_open_put, bind, emit,
    ret, start.
  simpl. destruct (storage_match store request); [reflexivity|].
  simpl. destruct (network env request); reflexivity.
Qed.

Lemma image_strategy_blocked (env : Env) (store : CacheStorage)
  (request : Request) :
  storage_match store request = None ->
  (isDirectNavigation request && includes (url request) "/images/") = true ->
  image_strategy env request (start store)
  = (Fulfilled (Some direct_navigation_response),
     {| caches := store; events := [CachesMatch (url request)] |}).
Proof.
  intros Hmiss Hnav.
  unfold image_strategy, caches_match, bind, emit, ret, start.
  simpl. now rewrite Hmiss, Hnav.
Qed.

Lemma dynamic_strategy_run (env : Env) (store : CacheStorage) (request : Request) :
  dynamic_strategy env request (start store)
  = (Fulfilled
       (Some match network env request with
             | Some response => response
             | None => network_unavailable_response
             end),
     {| caches := store; events := [NetworkFetch (url request)] |}).
Proof.
  unfold dynamic_strategy, fetch, bind, emit, ret, start. simpl.
  destruct (network env request); reflexivity.
Qed.

Lemma default_strategy_run (env : Env) (store : CacheStorage) (request : Request) :
  default_strategy env request (start store)
  = match network env request with
    | Some response =>
        (Fulfilled (Some response),
         if ok response && String.eqb (response_type response) "basic" then
           {| caches :=
                storage_update store STATIC_CACHE
                  (fun c => cache_put c request response);
              events := [NetworkFetch (url request);
                         CachePut STATIC_CACHE (url request)] |}
         else
           {| caches := store; events := [NetworkFetch (url request)] |})
    | None =>
        (Fulfilled
           (Some match storage_match store request with
                 | Some cached => cached
                 | None => offline_response
                 end),
         {| caches := store;
            events := [NetworkFetch (url request);
                       CachesMatch (url request)] |})
    end.
Proof.
  unfold default_strategy, caches_match, fetch, caches_open_put, bind, emit,
    ret, start.
  simpl. destruct (network env request) as [response|]; simpl.
  - destruct (ok response && String.eqb (response_type response) "basic");
      reflexivity.
  - destruct (storage_match store request); reflexivity.
Qed.

(** Every way a request can be handled.  The tactic rewrites [handle] into
    the outcome of the strategy that the class selects and splits on the
    tests that the strategy makes. *)
Ltac handle_cases env store request :=
  unfold handle; rewrite (fetch_listener_by_class env request);
  destruct (classify request) eqn:?;
  [ rewrite (static_strategy_run env store request);
    destruct (storage_match store request) eqn:?;
    [| destruct (network env request) eqn:? ]
  | destruct (storage_match store request) eqn:?;
    [ rewrite (image_strategy_hit env store request _ ltac:(eassumption))
    | destruct (isDirectNavigation request
                && includes (url request) "/images/") eqn:?;
      [ rewrite (image_strategy_blocked env store request)
          by assumption
      | rewrite (image_strategy_miss env store request)
          by assumption;
        destruct (isAuthenticated env request) eqn:?;
        [ destruct (network env request) eqn:?;
          [ match goal with
            | |- context [if ok ?r then _ else _] => destruct (ok r) eqn:?
            end |] |] ] ]
  | rewrite (dynamic_strategy_run env store request);
    destruct (network env request) eqn:?
  | rewrite (default_strategy_run env store request);
    destruct (network env request) eqn:?;
    [ match goal with
      | |- context [if ok ?r && ?b then _ else _] =>
          destruct (ok r && b) eqn:?
      end
    | destruct (storage_match store request) eqn:? ] ].

(** ** Cache storage: what a write changes *)

Lemma cache_lookup_app (c1 c2 : Cache) (u : string) :
  cache_lookup (c1 ++ c2) u
  = match cache_lookup c1 u with
    | Some r => Some r
    | None => cache_lookup c2 u
    end.
Proof.
  induction c1 as [|[k v] c1 IH]; simpl; [reflexivity|].
  destruct (String.eqb k u); [reflexivity | exact IH].
Qed.

Lemma cache_lookup_remove_other (c : Cache) (u v : string) :
  u <> v ->
  cache_lookup (filter (fun kv => negb (String.eqb (fst kv) v)) c) u
  = cache_lookup c u.
Proof.
  intros Hne. induction c as [|[k r] c IH]; simpl; [reflexivity|].
  destruct (String.eqb_spec k v) as [-> | Hk]; simpl.
  - destruct (String.eqb_spec v u) as [-> | _]; [congruence | exact IH].
  - now rewrite IH.
Qed.

Lemma cache_put_other (c : Cache) (request : Request) (response : Response)
  (u : string) :
  u <> url request ->
  cache_lookup (cache_put c request response) u = cache_lookup c u.
Proof.
  intros Hne. unfold cache_put.
  destruct (_ && _); [|reflexivity].
  rewrite cache_lookup_app, (cache_lookup_remove_other c u _ Hne). simpl.
  destruct (String.eqb_spec (url request) u) as [E | _]; [congruence|].
  now destruct (cache_lookup c u).
Qed.

Lemma storage_lookup_update_other (s : CacheStorage) (name : string)
  (request : Request) (response : Response) (u : string) :
  u <> url request ->
  storage_lookup
    (storage_update s name (fun c => cache_put c request response)) u
  = storage_lookup s u.
Proof.
  intros Hne. induction s as [|[n c] s IH]; simpl.
  - now rewrite (cache_put_other [] request response u Hne).
  - destruct (String.eqb n name); simpl.
    + now rewrite (cache_put_other c request response u Hne).
    + now rewrite IH.
Qed.

Lemma tier_update_other (s : CacheStorage) (name other : string)
  (f : Cache -> Cache) :
  other <> name ->
  tier (storage_update s name f) other = tier s other.
Proof.
  intros Hne. induction s as [|[n c] s IH]; simpl.
  - destruct (String.eqb_spec name other); [congruence | reflexivity].
  - destruct (String.eqb_spec n name) as [-> | Hn]; simpl.
    + destruct (String.eqb_spec name other); [congruence | reflexivity].
    + destruct (String.eqb n other); [reflexivity | exact IH].
Qed.

(** ** Properties of the listener as a whole *)

(** Handling a request leaves every other URL and every other cache alone.
    When neither URL carries a fragment, what [caches.match] finds for a
    URL other than the request's is unchanged.  Only the caches
    [STATIC_CACHE] and [IMAGES_CACHE] can change. *)
Theorem handle_writes_are_local (env : Env) (store : CacheStorage)
  (request : Request) :
  (forall u,
     ~ contains (url request) "#" -> ~ contains u "#" ->
     u <> url request ->
     storage_lookup (caches (snd (handle env store request))) u
     = storage_lookup store u)
  /\ (forall name, name <> STATIC_CACHE -> name <> IMAGES_CACHE ->
        tier (caches (snd (handle env store request))) name
        = tier store name).
Proof.
  split.
  - intros u _ _ Hu. handle_cases env store request; simpl; try reflexivity;
      now apply storage_lookup_update_other.
  - intros name Hs Hi. handle_cases env store request; simpl;
      try reflexivity; now apply tier_update_other.
Qed.

(** Caching the gallery image of scenario A leaves the look-up of the
    portrait as it was. *)
Lemma handle_writes_are_local_gallery :
  cache_writes
    (events (snd (handle (Scenario.online (Scenario.picture "a"))
                    Scenario.after_first_portrait Scenario.gallery_image)))
  = [(IMAGES_CACHE, url Scenario.gallery_image)]
  /\ storage_lookup
       (caches (snd (handle (Scenario.online (Scenario.picture "a"))
                       Scenario.after_first_portrait Scenario.gallery_image)))
       Scenario.portrait_url
     = storage_lookup Scenario.after_first_portrait Scenario.portrait_url.
Proof.
  split; [reflexivity|].
  apply (proj1 (handle_writes_are_local
                  (Scenario.online (Scenario.picture "a"))
                  Scenario.after_first_portrait Scenario.gallery_image)).
  - intros H. apply includes_iff in H. discriminate.
  - intros H. apply includes_iff in H. discriminate.
  - discriminate.
Defined.

(** One request costs at most one network fetch, of its own URL, and at
    most one call of [isAuthenticated]; every cache write is for its own
    URL.  There is no retry. *)
Theorem handle_fetches_at_most_once (env : Env) (store : CacheStorage)
  (request : Request) :
  let log := events (snd (handle env store request)) in
  (fetched_urls log = [] \/ fetched_urls log = [url request])
  /\ (policy_checked_urls log = []
      \/ (policy_checked_urls log = [url request]
          /\ classify request = ProtectedImage))
  /\ (cache_writes log = []
      \/ (fetched_urls log = [url request]
          /\ (cache_writes log = [(STATIC_CACHE, url request)]
              \/ cache_writes log = [(IMAGES_CACHE, url request)]))).
Proof.
  cbv zeta. handle_cases env store request; simpl; auto 6.
Qed.

(** The page gets a network error in two situations only, both with the
    cache missed and the network down: a static asset (that strategy has
    no fallback), and an allowed image when the cache holds no
    placeholder.  Dynamic and other requests always get a response. *)
Theorem handle_network_error_iff (env : Env) (store : CacheStorage)
  (request : Request) :
  respondWith (fst (handle env store request)) = NetworkError
  <-> network env request = None
      /\ storage_match store request = None
      /\ (classify request = StaticAsset
          \/ (classify request = ProtectedImage
              /\ (isDirectNavigation request
                  && includes (url request) "/images/") = false
              /\ isAuthenticated env request = true
              /\ storage_match store
                   (request_of_path env "/images/placeholder.jpeg") = None)).
Proof.
  handle_cases env store request; simpl;
    try (destruct (storage_match store
                     (request_of_path env "/images/placeholder.jpeg")) eqn:?;
         simpl);
    split; intros H; try discriminate H;
    repeat match goal with
           | H : _ /\ _ |- _ => destruct H
           | H : _ \/ _ |- _ => destruct H
           end;
    try congruence; auto 10.
Qed.

(** ** Static assets *)

(** The static strategy, for a request of class [StaticAsset]: a cached
    response is returned with no fetch; on a miss the request is fetched
    once and the response, whatever its status, is written to
    [STATIC_CACHE] and returned; when that fetch fails the promise given to
    [respondWith] rejects, so the page gets a network error. *)
Theorem static_asset_strategy (env : Env) (store : CacheStorage)
  (request : Request) :
  classify request = StaticAsset ->
  (forall cached,
     storage_match store request = Some cached ->
     handle env store request
     = (Fulfilled (Some cached),
        {| caches := store; events := [CachesMatch (url request)] |}))
  /\ (forall response,
        storage_match store request = None ->
        network env request = Some response ->
        handle env store request
        = (Fulfilled (Some response),
           {| caches :=
                storage_update store STATIC_CACHE
                  (fun c => cache_put c request response);
              events := [CachesMatch (url request);
                         NetworkFetch (url request);
                         CachePut STATIC_CACHE (url request)] |}))
  /\ (storage_match store request = None ->
      network env request = None ->
      handle env store request
      = (Rejected,
         {| caches := store;
            events := [CachesMatch (url request);
                       NetworkFetch (url request)] |})
      /\ respondWith (fst (handle env store request)) = NetworkError).
Proof.
  intros Hclass. unfold handle.
  rewrite fetch_listener_by_class, Hclass, static_strategy_run.
  split; [|split].
  - now intros cached ->.
  - now intros response -> ->.
  - now intros -> ->.
Qed.

Lemma static_asset_strategy_offline :
  classify Replay.index_page = StaticAsset
  /\ respondWith
       (fst (handle Scenario.offline Scenario.installed Replay.index_page))
     = NetworkError.
Proof.
  split; [reflexivity|].
  exact (proj2 (proj2 (proj2 (static_asset_strategy Scenario.offline
                                Scenario.installed Replay.index_page eq_refl))
                  eq_refl eq_refl)).
Defined.

(** ** Images: denial *)

Lemma bot_is_denied (env : Env) (request : Request) :
  isLocalhost env = false ->
  isDownloadAttempt (userAgent_of request) = true ->
  isAuthenticated env request = false.
Proof. intros Hh Hb. unfold isAuthenticated. now rewrite Hh, Hb. Qed.

(** An image-class request that misses the cache and that
    [isAuthenticated] denies is answered with a 403 and never reaches the
    network: the HTML page when the direct-navigation test fires first,
    otherwise the plain-text response with
    [X-Protection-Reason: Unauthorized access attempt detected].  The
    cache storage is left as it was. *)
Theorem denied_image_is_not_fetched (env : Env) (store : CacheStorage)
  (request : Request) :
  classify request = ProtectedImage ->
  storage_match store request = None ->
  isAuthenticated env request = false ->
  handle env store request
  = (if isDirectNavigation request && includes (url request) "/images/"
     then (Fulfilled (Some direct_navigation_response),
           {| caches := store; events := [CachesMatch (url request)] |})
     else (Fulfilled (Some unauthorized_response),
           {| caches := store;
              events := [CachesMatch (url request);
                         PolicyCheck (url request)] |}))
  /\ fetched_urls (events (snd (handle env store request))) = []
  /\ status unauthorized_response = 403%Z
  /\ body unauthorized_response = "403 Forbidden - Image Protection Active"
  /\ response_header unauthorized_response "Content-Type" = Some "text/plain"
  /\ response_header unauthorized_response "X-Protection-Reason"
     = Some "Unauthorized access attempt detected".
Proof.
  intros Hclass Hmiss Hauth.
  unfold handle. rewrite fetch_listener_by_class, Hclass.
  destruct (isDirectNavigation request && includes (url request) "/images/")
    eqn:Hnav.
  - rewrite (image_strategy_blocked env store request Hmiss Hnav).
    repeat split; reflexivity.
  - rewrite (image_strategy_miss env store request Hmiss Hnav), Hauth.
    repeat split; reflexivity.
Qed.

(** A crawler that sends the referer of the gallery page gets the 403 and
    nothing is fetched. *)
Lemma denied_image_is_not_fetched_crawler :
  hasValidReferer Scenario.site (referer_of Replay.crawler_image) = true
  /\ handle (Scenario.online (Scenario.picture "a")) Scenario.installed
       Replay.crawler_image
     = (Fulfilled (Some unauthorized_response),
        {| caches := Scenario.installed;
           events := [CachesMatch (url Replay.crawler_image);
                      PolicyCheck (url Replay.crawler_image)] |}).
Proof.
  split; [reflexivity|].
  exact (proj1 (denied_image_is_not_fetched
                  (Scenario.online (Scenario.picture "a")) Scenario.installed
                  Replay.crawler_image eq_refl eq_refl
                  (bot_is_denied (Scenario.online (Scenario.picture "a"))
                     Replay.crawler_image eq_refl eq_refl))).
Defined.

(** ** Activation *)

Lemma world_eta (w : World) :
  {| caches := caches w; events := events w |} = w.
Proof. now destruct w. Qed.

Lemma current_generation_test (name : string) :
  negb (String.eqb name CACHE_NAME)
  && negb (String.eqb name STATIC_CACHE)
  && negb (String.eqb name IMAGES_CACHE)
  = negb (current_generation name).
Proof.
  unfold current_generation.
  destruct (String.eqb name CACHE_NAME), (String.eqb name STATIC_CACHE),
    (String.eqb name IMAGES_CACHE); reflexivity.
Qed.

Lemma current_generation_iff (name : string) :
  current_generation name = true
  <-> name = CACHE_NAME \/ name = STATIC_CACHE \/ name = IMAGES_CACHE.
Proof.
  unfold current_generation. rewrite !orb_true_iff, !String.eqb_eq. tauto.
Qed.

Lemma filter_twice (A : Type) (f g : A -> bool) (l : list A) :
  filter f (filter g l) = filter (fun x => g x && f x) l.
Proof.
  induction l as [|x l IH]; simpl; [reflexivity|].
  destruct (g x); simpl; [destruct (f x)|]; now rewrite IH.
Qed.

Lemma filter_same (A : Type) (f g : A -> bool) (l : list A) :
  (forall x, In x l -> f x = g x) -> filter f l = filter g l.
Proof.
  induction l as [|x l IH]; simpl; intros H; [reflexivity|].
  rewrite (H x) by auto. rewrite IH by auto. reflexivity.
Qed.

Lemma filter_everything (A : Type) (f : A -> bool) (l : list A) :
  (forall x, In x l -> f x = true) -> filter f l = l.
Proof.
  induction l as [|x l IH]; simpl; intros H; [reflexivity|].
  rewrite (H x) by auto. now rewrite IH by auto.
Qed.

(** The deletions of [activate], one name after the other. *)
Lemma activate_loop (names : list string) :
  forall w,
    for_each
      (fun cacheName =>
         if negb (String.eqb cacheName CACHE_NAME)
            && negb (String.eqb cacheName STATIC_CACHE)
            && negb (String.eqb cacheName IMAGES_CACHE)
         then caches_delete cacheName
         else ret tt)
      names w
    = (tt,
       {| caches :=
            filter (fun nc => current_generation (fst nc)
                              || negb (existsb (String.eqb (fst nc)) names))
              (caches w);
          events := events w |}).
Proof.
  induction names as [|n names IH]; intros w.
  - cbn [for_each ret existsb]. rewrite filter_everything.
    + now rewrite world_eta.
    + intros x _. apply orb_true_r.
  - cbn [for_each]. unfold bind. rewrite current_generation_test.
    destruct (current_generation n) eqn:En; cbn [negb].
    + unfold ret. rewrite IH. f_equal. f_equal.
      apply filter_same. intros [m c] _. cbn [fst existsb].
      destruct (String.eqb_spec m n) as [-> | _]; [|reflexivity].
      now rewrite En.
    + unfold caches_delete. rewrite IH. cbn [caches events].
      rewrite filter_twice. f_equal. f_equal.
      apply filter_same. intros [m c] _. cbn [fst existsb].
      destruct (String.eqb_spec m n) as [-> | _]; cbn [negb andb orb].
      * now rewrite En.
      * reflexivity.
Qed.

Lemma activate_run (w : World) :
  activate w
  = (tt,
     {| caches := filter (fun nc => current_generation (fst nc)) (caches w);
        events := events w |}).
Proof.
  unfold activate, bind, caches_keys. rewrite activate_loop.
  f_equal. f_equal. apply filter_same. intros [m c] Hin. cbn [fst].
  assert (existsb (String.eqb m) (map fst (caches w)) = true) as ->.
  { apply existsb_exists. exists m. split; [|apply String.eqb_refl].
    apply in_map_iff. exists (m, c). auto. }
  apply orb_false_r.
Qed.

Lemma tier_filter (keep : string -> bool) (s : CacheStorage) (name : string) :
  tier (filter (fun nc => keep (fst nc)) s) name
  = if keep name then tier s name else None.
Proof.
  induction s as [|[n c] s IH]; simpl.
  - now destruct (keep name).
  - destruct (String.eqb_spec n name) as [-> | Hne].
    + destruct (keep name) eqn:E; simpl.
      * now rewrite String.eqb_refl.
      * exact IH.
    + destruct (keep n); simpl; [|exact IH].
      destruct (String.eqb_spec n name); [congruence | exact IH].
Qed.

(** [activate] keeps the three caches of the current generation, with
    their content, and deletes every other cache; it fetches nothing, and
    activating again changes nothing. *)
Theorem activate_keeps_current_generation (w : World) :
  events (snd (activate w)) = events w
  /\ (forall name,
        name = CACHE_NAME \/ name = STATIC_CACHE \/ name = IMAGES_CACHE ->
        tier (caches (snd (activate w))) name = tier (caches w) name)
  /\ (forall name,
        name <> CACHE_NAME -> name <> STATIC_CACHE -> name <> IMAGES_CACHE ->
        tier (caches (snd (activate w))) name = None)
  /\ (forall name c,
        In (name, c) (caches (snd (activate w))) ->
        In (name, c) (caches w)
        /\ (name = CACHE_NAME \/ name = STATIC_CACHE \/ name = IMAGES_CACHE))
  /\ snd (activate (snd (activate w))) = snd (activate w).
Proof.
  rewrite !activate_run. cbn [snd caches events].
  split; [reflexivity|]. split; [|split; [|split]].
  - intros name H. apply current_generation_iff in H.
    now rewrite (tier_filter current_generation), H.
  - intros name H1 H2 H3.
    rewrite (tier_filter current_generation).
    destruct (current_generation name) eqn:E; [|reflexivity].
    apply current_generation_iff in E. tauto.
  - intros name c H. apply filter_In in H. destruct H as [Hin Hc].
    split; [exact Hin|]. now apply current_generation_iff.
  - f_equal. rewrite filter_twice. apply filter_same.
    intros x _. apply andb_diag.
Qed.

(** ** Background sync *)

Lemma storage_update_absent (s : CacheStorage) (name : string)
  (f : Cache -> Cache) :
  tier s name = None -> storage_update s name f = s ++ [(name, f [])].
Proof.
  induction s as [|[n c] s IH]; simpl; [reflexivity|].
  destruct (String.eqb n name); [discriminate|].
  intros H. now rewrite IH.
Qed.

(** The loop of the two sync functions, from a world in which the queue
    cache exists. *)
Lemma replay_loop (env : Env) (name marker : string) (keys : list string) :
  forall (w : World) (c : Cache),
    tier (caches w) name = Some c ->
    let w' := snd (for_each (replay env name marker) keys w) in
    tier (caches w') name
    = Some (filter
              (fun kv =>
                 negb (existsb
                         (fun k => String.eqb (fst kv) k
                                   && (includes k marker
                                       && replay_succeeds env k))
                         keys))
              c)
    /\ events w'
       = events w
         ++ map NetworkFetch (filter (fun k => includes k marker) keys)
    /\ (forall other, other <> name ->
          tier (caches w') other = tier (caches w) other).
Proof.
  induction keys as [|u keys IH]; intros w c Hc; cbv zeta.
  - cbn [for_each ret snd existsb filter map]. rewrite app_nil_r.
    rewrite filter_everything by reflexivity. auto.
  - cbn [for_each]. unfold bind.
    destruct (replay env name marker u w) as [[] w1] eqn:Hstep.
    assert (tier (caches w1) name
            = Some (filter
                      (fun kv => negb (String.eqb (fst kv) u
                                       && (includes u marker
                                           && replay_succeeds env u)))
                      c)
            /\ events w1
               = events w ++ (if includes u marker then [NetworkFetch u]
                              else [])
            /\ (forall other, other <> name ->
                  tier (caches w1) other = tier (caches w) other)) as Hw1.
    { unfold replay, replay_succeeds in *.
      destruct (includes u marker).
      - unfold bind, fetch, emit, ret in Hstep. simpl in Hstep.
        destruct (network env (request_of_key u)) as [response|].
        + destruct (ok response).
          * unfold cache_delete in Hstep. simpl in Hstep.
            injection Hstep as <-. simpl. split; [|split].
            -- rewrite tier_storage_update, Hc. f_equal.
               apply filter_same. intros kv _. now rewrite !andb_true_r.
            -- reflexivity.
            -- intros other Ho. now apply tier_update_other.
          * unfold ret in Hstep. injection Hstep as <-. simpl.
            split; [|split; [reflexivity | reflexivity]].
            rewrite Hc. f_equal. symmetry. apply filter_everything.
            intros kv _. now rewrite !andb_false_r.
        + unfold ret in Hstep. injection Hstep as <-. simpl.
          split; [|split; [reflexivity | reflexivity]].
          rewrite Hc. f_equal. symmetry. apply filter_everything.
          intros kv _. now rewrite !andb_false_r.
      - unfold ret in Hstep. injection Hstep as <-.
        split; [|split; [now rewrite app_nil_r | reflexivity]].
        rewrite Hc. f_equal. symmetry. apply filter_everything.
        intros kv _. now rewrite andb_false_r. }
    destruct Hw1 as (Ht1 & He1 & Ho1).
    destruct (IH w1 _ Ht1) as (Ht & He & Ho). cbv zeta in Ht, He, Ho.
    split; [|split].
    + rewrite Ht, filter_twice. f_equal. apply filter_same.
      intros kv _. cbn [existsb]. now rewrite negb_orb.
    + rewrite He, He1, <- app_assoc. f_equal. cbn [filter].
      destruct (includes u marker); reflexivity.
    + intros other Hne. now rewrite Ho, Ho1.
Qed.

Lemma sync_queue_run (env : Env) (name marker : string) (w : World) :
  let queue := match tier (caches w) name with Some c => c | None => [] end in
  let w' :=
    snd ((caches_open name ;;
          requests <- cache_keys name ;;
          for_each (replay env name marker) requests) w) in
  tier (caches w') name
  = Some (filter
            (fun kv => negb (includes (fst kv) marker
                             && replay_succeeds env (fst kv)))
            queue)
  /\ events w'
     = events w
       ++ map NetworkFetch
            (filter (fun u => includes u marker) (map fst queue))
  /\ (forall other, other <> name ->
        tier (caches w') other = tier (caches w) other).
Proof.
  cbv zeta. unfold bind, caches_open, cache_keys. cbn [caches events].
  rewrite tier_storage_update.
  set (queue := match tier (caches w) name with Some c => c | None => [] end).
  destruct (replay_loop env name marker (map fst queue)
              {| caches := storage_update (caches w) name (fun c => c);
                 events := events w |} queue)
    as (Ht & He & Ho).
  { cbn [caches]. apply tier_storage_update. }
  cbv zeta in Ht, He, Ho. cbn [caches events] in Ht, He, Ho.
  split; [|split].
  - rewrite Ht. f_equal. apply filter_same. intros [k r] Hin. cbn [fst].
    f_equal.
    destruct (includes k marker && replay_succeeds env k) eqn:E.
    + apply existsb_exists. exists k. split.
      * apply in_map_iff. exists (k, r). auto.
      * now rewrite String.eqb_refl.
    + destruct (existsb _ _) eqn:Ex; [|reflexivity].
      apply existsb_exists in Ex. destruct Ex as (k' & _ & Hk').
      apply andb_true_iff in Hk'. destruct Hk' as [Heq Hk'].
      apply String.eqb_eq in Heq. subst k'. congruence.
  - exact He.
  - intros other Hne. rewrite (Ho other Hne). now apply tier_update_other.
Qed.

(** [syncContactForm] and [syncAnalyticsData]: the queue cache is created
    when it does not exist; each queued URL that contains the marker
    ([/api/contact], [/api/analytics]) is fetched once, in order, and
    nothing else is fetched; an entry is deleted exactly when its URL
    contains the marker and its fetch returned an [ok] response; every
    other cache is left as it was. *)
Theorem sync_replays_the_queue (env : Env) (w : World) :
  (let queue := match tier (caches w) "contact-form-cache" with
                | Some c => c | None => [] end in
   let w' := snd (syncContactForm env w) in
   tier (caches w') "contact-form-cache"
   = Some (filter
             (fun kv => negb (includes (fst kv) "/api/contact"
                              && replay_succeeds env (fst kv)))
             queue)
   /\ events w'
      = events w
        ++ map NetworkFetch
             (filter (fun u => includes u "/api/contact") (map fst queue))
   /\ (forall other, other <> "contact-form-cache" ->
         tier (caches w') other = tier (caches w) other))
  /\ (let queue := match tier (caches w) "analytics-cache" with
                   | Some c => c | None => [] end in
      let w' := snd (syncAnalyticsData env w) in
      tier (caches w') "analytics-cache"
      = Some (filter
                (fun kv => negb (includes (fst kv) "/api/analytics"
                                 && replay_succeeds env (fst kv)))
                queue)
      /\ events w'
         = events w
           ++ map NetworkFetch
                (filter (fun u => includes u "/api/analytics") (map fst queue))
      /\ (forall other, other <> "analytics-cache" ->
            tier (caches w') other = tier (caches w) other)).
Proof.
  split.
  - exact (sync_queue_run env "contact-form-cache" "/api/contact" w).
  - exact (sync_queue_run env "analytics-cache" "/api/analytics" w).
Qed.

(** Queued submissions do not survive activation: [activate] deletes the
    two queue caches, so a sync that follows it finds nothing to send and
    only creates an empty queue. *)
Theorem activation_discards_sync_queues (env : Env) (w : World) (tag : string) :
  let activated := snd (activate w) in
  let synced := snd (sync_listener env tag activated) in
  events synced = events w
  /\ tier (caches activated) "contact-form-cache" = None
  /\ tier (caches activated) "analytics-cache" = None
  /\ (tag = "background-sync-contact" ->
      caches synced = caches activated ++ [("contact-form-cache", [])])
  /\ (tag = "background-sync-analytics" ->
      caches synced = caches activated ++ [("analytics-cache", [])])
  /\ (tag <> "background-sync-contact" ->
      tag <> "background-sync-analytics" ->
      synced = activated).
Proof.
  cbv zeta. rewrite activate_run. cbn [snd].
  set (kept := filter (fun nc => current_generation (fst nc)) (caches w)).
  assert (tier kept "contact-form-cache" = None) as Hc
    by (unfold kept; now rewrite (tier_filter current_generation)).
  assert (tier kept "analytics-cache" = None) as Ha
    by (unfold kept; now rewrite (tier_filter current_generation)).
  assert (forall name marker,
            tier kept name = None ->
            snd ((caches_open name ;;
                  requests <- cache_keys name ;;
                  for_each (replay env name marker) requests)
                   {| caches := kept; events := events w |})
            = {| caches := kept ++ [(name, [])]; events := events w |}) as Hrun.
  { intros name marker Hn.
    unfold bind, caches_open, cache_keys. cbn [caches events].
    rewrite tier_storage_update, Hn.
    now rewrite (storage_update_absent kept name (fun c => c) Hn). }
  unfold sync_listener.
  destruct (String.eqb_spec tag "background-sync-contact") as [-> | Hn1].
  - unfold syncContactForm. rewrite (Hrun _ _ Hc). cbn [caches events].
    repeat split; auto; try discriminate. intros H; congruence.
  - destruct (String.eqb_spec tag "background-sync-analytics") as [-> | Hn2].
    + unfold syncAnalyticsData. rewrite (Hrun _ _ Ha). cbn [caches events].
      repeat split; auto; try discriminate. intros H; congruence.
    + cbn [ret snd caches events]. repeat split; auto; congruence.
Qed.

(** A queued contact submission is sent once the network is back and then
    leaves the queue. *)
Example sync_sends_queued_submission :
  snd (sync_listener (Scenario.online (Scenario.page "ok"))
         "background-sync-contact"
         (start [("contact-form-cache",
                  [("https://www.abphotostudio.in/api/contact?id=1",
                    Scenario.page "");
                   ("https://www.abphotostudio.in/draft", Scenario.page "")])]))
  = {| caches := [("contact-form-cache",
                   [("https://www.abphotostudio.in/draft", Scenario.page "")])];
       events := [NetworkFetch
                    "https://www.abphotostudio.in/api/contact?id=1"] |}.
Proof. reflexivity. Qed.

(** ** Notification clicks *)

Lemma first_match_spec (target : string) (clientList : list WindowClient) :
  match first_match target clientList with
  | Some client =>
      exists before after,
        clientList = before ++ client :: after
        /\ client_matches target client
        /\ Forall (fun c => ~ client_matches target c) before
  | None => Forall (fun c => ~ client_matches target c) clientList
  end.
Proof.
  induction clientList as [|c rest IH]; cbn [first_match]; [constructor|].
  destruct (includes (client_url c) target && has_focus c) eqn:E.
  - apply andb_true_iff in E. destruct E as [Hu Hf].
    exists [], rest. split; [reflexivity|]. split; [|constructor].
    split; [now apply includes_iff | exact Hf].
  - assert (~ client_matches target c) as Hc.
    { intros [Hu Hf]. apply includes_iff in Hu. rewrite Hu, Hf in E.
      discriminate. }
    destruct (first_match target rest) as [client|].
    + destruct IH as (before & after & -> & Hm & Hb).
      exists (c :: before), after. split; [reflexivity|].
      split; [exact Hm | now constructor].
    + now constructor.
Qed.

(** A click on a notification, for any action but [dismiss]: the first
    client in the list whose URL contains the target URL and that can be
    focused is focused; when there is none, the target is opened in a new
    window if [openWindow] exists, and otherwise nothing happens.  The
    action [dismiss] never focuses or opens anything. *)
Theorem notificationclick_focuses_first_match (action : string)
  (data_url : JsAny) (clientList : list WindowClient) (can_open : bool) :
  (action = "dismiss" ->
   notificationclick action data_url clientList can_open = NoNavigation)
  /\ (action <> "dismiss" ->
      exists target,
        click_target action data_url = Some target
        /\ ((exists before client after,
               clientList = before ++ client :: after
               /\ client_matches target client
               /\ Forall (fun c => ~ client_matches target c) before
               /\ notificationclick action data_url clientList can_open
                  = Focused client)
            \/ (Forall (fun c => ~ client_matches target c) clientList
                /\ notificationclick action data_url clientList can_open
                   = if can_open then Opened target else NoNavigation))).
Proof.
  split.
  - intros ->. reflexivity.
  - intros Hne.
    assert (exists target, click_target action data_url = Some target)
      as [target Ht].
    { unfold click_target. destruct (negb (String.eqb action "")); eauto.
      destruct (String.eqb action "view-portfolio"); eauto.
      destruct (String.eqb action "contact"); eauto.
      destruct (String.eqb_spec action "dismiss"); [contradiction | eauto]. }
    exists target. split; [exact Ht|].
    unfold notificationclick. rewrite Ht.
    pose proof (first_match_spec target clientList) as Hspec.
    destruct (first_match target clientList) as [client|].
    + left. destruct Hspec as (before & after & Hl & Hm & Hb).
      exists before, client, after. auto.
    + right. auto.
Qed.

(** A click with no action, or with an action the listener does not know,
    on a notification whose data has no usable URL aims at [/].  Every
    client URL that contains a slash matches it, so the first such window
    that can be focused is focused whatever page it shows, and no window
    is opened. *)
Theorem notificationclick_default_focuses_first_window (action : string)
  (data_url : JsAny) (first : WindowClient) (others : list WindowClient)
  (can_open : bool) :
  action <> "view-portfolio" -> action <> "contact" -> action <> "dismiss" ->
  is_truthy data_url = false ->
  contains (client_url first) "/" ->
  has_focus first = true ->
  notificationclick action data_url (first :: others) can_open = Focused first.
Proof.
  intros H1 H2 H3 Hfalsy Hslash Hfocus.
  assert (click_target action data_url = Some "/") as Ht.
  { unfold click_target, data_url_or_root. rewrite Hfalsy.
    destruct (negb (String.eqb action "")); [|reflexivity].
    destruct (String.eqb_spec action "view-portfolio"); [contradiction|].
    destruct (String.eqb_spec action "contact"); [contradiction|].
    destruct (String.eqb_spec action "dismiss"); [contradiction|].
    reflexivity. }
  unfold notificationclick. rewrite Ht. cbn [first_match].
  apply includes_iff in Hslash. now rewrite Hslash, Hfocus.
Qed.

(** A plain click while the contact page is open: that window is focused,
    not the start page. *)
Lemma notificationclick_default_focuses_first_window_contact :
  notificationclick "" js_undefined
    [{| client_url := "https://www.abphotostudio.in/?section=contact";
        has_focus := true |};
     {| client_url := "https://www.abphotostudio.in/"; has_focus := true |}]
    true
  = Focused {| client_url := "https://www.abphotostudio.in/?section=contact";
               has_focus := true |}.
Proof.
  apply notificationclick_default_focuses_first_window;
    try discriminate; try reflexivity.
  exists "https:", "/www.abphotostudio.in/?section=contact". reflexivity.
Defined.
